(** * Klein-Vortex Architecture: the reactor simulation core

    A shallow embedding of [ReactorSystem] from
    [system_sim_embodiment_b.py] (the "precision" run) and from
    [system_sim_embodiment_b_MassProduction.py] (the "robust" run), and the
    properties of its per-time-step transition [step].

    Numbers.  The program computes with IEEE doubles; here every float is a
    real number and every operation is the exact one ([np.sqrt] is [sqrt],
    [np.log] is [ln], [np.pi] is [PI], ...).  Rounding, overflow and NaN are
    therefore outside the model.  Division is the total division of [R]; the
    model describes the program for configurations with [DT <> 0] and
    [R_CNT <> 0], the only two divisors that are Python floats (dividing by
    them would raise [ZeroDivisionError]); every other division in [step] is a
    numpy division, which returns.

    Randomness.  [step] draws its sensor noise from numpy's process-wide
    generator.  That hidden state is modelled by [Generator]. *)

From Stdlib Require Import Reals Lra ZArith Bool List Arith Lia.
Import ListNotations.

Local Open Scope R_scope.

(** ** numpy and Python primitives used by the engine *)

(** A numpy array of three floats. *)
Record vec3 : Type := Vec3 { vx : R; vy : R; vz : R }.

(** [a + b] on arrays. *)
Definition vadd (a b : vec3) : vec3 :=
  Vec3 (vx a + vx b) (vy a + vy b) (vz a + vz b).

(** [a - b] on arrays. *)
Definition vsub (a b : vec3) : vec3 :=
  Vec3 (vx a - vx b) (vy a - vy b) (vz a - vz b).

(** [a * k] for an array [a] and a scalar [k]. *)
Definition vscale (a : vec3) (k : R) : vec3 :=
  Vec3 (vx a * k) (vy a * k) (vz a * k).

(** [k * a] for a scalar [k] and an array [a]. *)
Definition vscale_l (k : R) (a : vec3) : vec3 :=
  Vec3 (k * vx a) (k * vy a) (k * vz a).

(** [a / k] for an array [a] and a scalar [k]. *)
Definition vdiv (a : vec3) (k : R) : vec3 :=
  Vec3 (vx a / k) (vy a / k) (vz a / k).

(** [a[2] = z]. *)
Definition set_z (a : vec3) (z : R) : vec3 := Vec3 (vx a) (vy a) z.

(** [np.linalg.norm(a)]. *)
Definition norm (a : vec3) : R := sqrt (vx a ^ 2 + vy a ^ 2 + vz a ^ 2).

(** [np.clip(x, lo, hi)], that is [minimum(hi, maximum(x, lo))]. *)
Definition clip (x lo hi : R) : R := Rmin hi (Rmax x lo).

(** Python's [x ** y] on floats, for a base [x >= 0] and an exponent [y > 0]:
    [0 ** y] is [0], and a positive base gives [exp (y * ln x)].  ([step] only
    ever raises the non-negative [thermal_energy * k_vol] to [1/3].) *)
Definition fpow (x y : R) : R := if Rle_dec x 0 then 0 else Rpower x y.

(** [a > b] as a Python truth value. *)
Definition gtb (a b : R) : bool := if Rlt_dec b a then true else false.

(** ** Module constants

    The upper-case constants at the top of each file, gathered in one record.
    ([TOTAL_TIME] is read by the driver loop only, never by the engine.) *)
Record Config : Type := MkConfig {
  G : R;
  RHO_FLUID : R;
  RHO_PARTICLE : R;
  VISCOSITY : R;
  R_TANK : R;
  LIFT_SPEED : R;
  RPM_FLUID : R;
  RPM_MAGNET : R;
  MAGNET_STIFFNESS : R;
  R_CORE : R;
  R_CNT : R;
  GROWTH_RATE : R;
  ADHESION_LIMIT : R;
  DT : R
}.

(** ** The engine's state: the attributes set by [__init__] *)
Record State : Type := MkState {
  pos : vec3;
  cnt_length : R;
  break_counter : Z;
  max_length_record : R;
  thermal_energy : R;
  r_vapor : R;
  power_input : R;
  pid_err_sum : R;
  pid_last_err : R;
  current_z_vel_real : R
}.

(** The tuple [step] returns:
    [pos, cnt_length, power_input, current_target_vel, r_vapor, f_tension, broken]. *)
Record StepResult : Type := MkStepResult {
  res_pos : vec3;
  res_cnt_length : R;
  res_power_input : R;
  res_target_vel : R;
  res_r_vapor : R;
  res_tension : R;
  res_broken : bool
}.

(** The seed length of the filament, the literal [1e-9] of [__init__] and of
    the reset in [step]. *)
Definition SEED_LENGTH : R := 1e-9.

(** [ReactorSystem.__init__]. *)
Definition init (c : Config) : State :=
  {| pos := Vec3 (R_TANK c) 0 0;
     cnt_length := SEED_LENGTH;
     break_counter := 0%Z;
     max_length_record := 0;
     thermal_energy := 0;
     r_vapor := 0;
     power_input := 0;
     pid_err_sum := 0;
     pid_last_err := 0;
     current_z_vel_real := 0 |}.

(** ** The hidden random generator

    [np.random.normal(loc, scale)] reads and advances numpy's global
    generator.  Its state is modelled by the standard-normal variates it is
    going to deliver, [tape], and the number already consumed, [cursor]. *)
Record Generator : Type := MkGenerator { tape : nat -> R; cursor : nat }.

(** [np.random.normal(loc, scale)]: the sample and the advanced generator. *)
Definition normal (g : Generator) (loc scale : R) : R * Generator :=
  (loc + scale * tape g (cursor g),
   {| tape := tape g; cursor := S (cursor g) |}).

(** ** The engine of [system_sim_embodiment_b.py] *)
Module Precision.

(** The constants of the file. *)
Definition config : Config :=
  {| G := 9.81;
     RHO_FLUID := 750.0;
     RHO_PARTICLE := 8900.0;
     VISCOSITY := 0.4e-3;
     R_TANK := 0.05;
     LIFT_SPEED := 0.0004;
     RPM_FLUID := 100.0;
     RPM_MAGNET := 99.95;
     MAGNET_STIFFNESS := 2e-5;
     R_CORE := 3.0e-6;
     R_CNT := 20e-9;
     GROWTH_RATE := 80e-6;
     ADHESION_LIMIT := 400e-9;
     DT := 0.0005 |}.

(** [ReactorSystem.get_fluid_velocity_field]: Taylor-Couette approximation. *)
Definition get_fluid_velocity_field (c : Config) (pos : vec3) : vec3 :=
  let omega_fluid := (RPM_FLUID c / 60.0) * 2 * PI in
  let r := sqrt (vx pos ^ 2 + vy pos ^ 2) in
  if Rlt_dec r 1e-6 then Vec3 0 0 (LIFT_SPEED c)
  else
    let v_tan_mag := omega_fluid * r in
    let tan_vec := vdiv (Vec3 (- vy pos) (vx pos) 0) r in
    let v_fluid := vscale tan_vec v_tan_mag in
    set_z v_fluid (LIFT_SPEED c).

(** [ReactorSystem.get_magnetic_target]: the trap, rotating slightly slower
    than the fluid, at the particle's own height. *)
Definition get_magnetic_target (c : Config) (self : State) (t : R) : vec3 :=
  let omega_mag := (RPM_MAGNET c / 60.0) * 2 * PI in
  let angle := omega_mag * t in
  Vec3 (R_TANK c * cos angle) (R_TANK c * sin angle) (vz (pos self)).

(** The body of [ReactorSystem.step] once the noise sample is drawn: the
    successor state and the returned tuple. *)
Definition step_body (c : Config) (self : State) (t noise : R)
  : State * StepResult :=
  (* 1. Soft-Start Logic *)
  let ramp_time := 20.0 in
  let current_target_vel :=
    if Rlt_dec t ramp_time then LIFT_SPEED c * (t / ramp_time)
    else LIFT_SPEED c in
  (* 2. Chemical Growth *)
  let cnt_length1 := cnt_length self + GROWTH_RATE c * DT c in
  let max_length_record1 :=
    if gtb cnt_length1 (max_length_record self) then cnt_length1
    else max_length_record self in
  (* 3. PID Control Loop (Induction Power) *)
  let measured_vel := current_z_vel_real self + noise in
  let z_error := current_target_vel - measured_vel in
  let pid_err_sum1 := clip (pid_err_sum self + z_error * DT c) (-0.5) 0.5 in
  let d_err := (z_error - pid_last_err self) / DT c in
  let kp := 80000.0 in
  let ki := 5000.0 in
  let kd := 500.0 in
  let adj := (kp * z_error) + (ki * pid_err_sum1) + (kd * d_err) in
  let power_input1 := clip (power_input self + adj * DT c) 0 150 in
  let pid_last_err1 := z_error in
  (* 4. Thermodynamics (Leidenfrost Mechanism) *)
  let cooling_loss := thermal_energy self * 2.0 in
  let d_energy := (power_input1 - cooling_loss) * DT c in
  let thermal_energy1 := Rmax 0 (thermal_energy self + d_energy) in
  let k_vol := 1.0e-13 in
  let r_vapor1 := fpow (thermal_energy1 * k_vol) (1 / 3) in
  (* 5. Forces & Mass *)
  let vol_core := (4 / 3) * PI * R_CORE c ^ 3 in
  let vol_vapor := (4 / 3) * PI * r_vapor1 ^ 3 in
  let vol_total := vol_core + vol_vapor in
  let mass_particle := vol_core * RHO_PARTICLE c in
  let vol_cnt := PI * (R_CNT c ^ 2) * cnt_length1 in
  let mass_cnt := vol_cnt * 2200.0 in
  let total_mass := mass_particle + mass_cnt in
  let f_buoy := vol_total * RHO_FLUID c * G c in
  let f_grav := total_mass * G c in
  let f_z_net := f_buoy - f_grav in
  let target_pos := get_magnetic_target c self t in
  let dist_vec := set_z (vsub target_pos (pos self)) 0 in
  let f_mag := vscale dist_vec (MAGNET_STIFFNESS c) in
  let omega_fluid := (RPM_FLUID c / 60.0) * 2 * PI in
  let f_cent :=
    vscale_l (total_mass * (omega_fluid ^ 2))
             (Vec3 (vx (pos self)) (vy (pos self)) 0) in
  (* 6. Hydrodynamics (Slender Body Theory) *)
  let r_eff_sphere := R_CORE c + r_vapor1 in
  let gamma_sphere := 6 * PI * VISCOSITY c * r_eff_sphere in
  let gamma_cnt :=
    if gtb cnt_length1 (10 * R_CNT c) then
      let eps := (2 * cnt_length1) / R_CNT c in
      let denom := ln eps - 0.5 in
      (2 * PI * VISCOSITY c * cnt_length1) / denom
    else 0 in
  let gamma_total := gamma_sphere + gamma_cnt in
  let f_external0 := vadd f_mag f_cent in
  let f_external := set_z f_external0 (vz f_external0 + f_z_net) in
  let v_drift := vdiv f_external gamma_total in
  let v_drift_mag := norm v_drift in
  let v_fluid := get_fluid_velocity_field c (pos self) in
  let v_total := vadd v_fluid v_drift in
  let pos1 := vadd (pos self) (vscale v_total (DT c)) in
  let current_z_vel_real1 := vz v_total in
  (* 7. Tear-Off Analysis (Mechanical Failure Check) *)
  let f_tension := v_drift_mag * gamma_cnt in
  let broken := gtb f_tension (ADHESION_LIMIT c) && gtb t 5.0 in
  let break_counter1 :=
    if broken then (break_counter self + 1)%Z else break_counter self in
  let cnt_length2 := if broken then 1e-9 else cnt_length1 in
  ({| pos := pos1;
      cnt_length := cnt_length2;
      break_counter := break_counter1;
      max_length_record := max_length_record1;
      thermal_energy := thermal_energy1;
      r_vapor := r_vapor1;
      power_input := power_input1;
      pid_err_sum := pid_err_sum1;
      pid_last_err := pid_last_err1;
      current_z_vel_real := current_z_vel_real1 |},
   {| res_pos := pos1;
      res_cnt_length := cnt_length2;
      res_power_input := power_input1;
      res_target_vel := current_target_vel;
      res_r_vapor := r_vapor1;
      res_tension := f_tension;
      res_broken := broken |}).

(** [ReactorSystem.step(t)]: the caller passes the elapsed time only; the
    noise is [np.random.normal(0, 0.0002)], drawn from the global generator
    [g], which the call advances. *)
Definition step (c : Config) (g : Generator) (self : State) (t : R)
  : (State * StepResult) * Generator :=
  let (noise, g1) := normal g 0 0.0002 in
  (step_body c self t noise, g1).

End Precision.

(** ** The engine of [system_sim_embodiment_b_MassProduction.py] *)
Module MassProduction.

(** The constants of the file. *)
Definition config : Config :=
  {| G := 9.81;
     RHO_FLUID := 750.0;
     RHO_PARTICLE := 8900.0;
     VISCOSITY := 0.6e-3;
     R_TANK := 0.05;
     LIFT_SPEED := 0.0004;
     RPM_FLUID := 100.0;
     RPM_MAGNET := 99.8;
     MAGNET_STIFFNESS := 2e-5;
     R_CORE := 3.0e-6;
     R_CNT := 20e-9;
     GROWTH_RATE := 80e-6;
     ADHESION_LIMIT := 300e-9;
     DT := 0.0005 |}.

(** This file's [ReactorSystem.get_fluid_velocity_field]. *)
Definition get_fluid_velocity_field (c : Config) (pos : vec3) : vec3 :=
  let omega_fluid := (RPM_FLUID c / 60.0) * 2 * PI in
  let r := sqrt (vx pos ^ 2 + vy pos ^ 2) in
  if Rlt_dec r 1e-6 then Vec3 0 0 (LIFT_SPEED c)
  else
    let v_tan_mag := omega_fluid * r in
    let tan_vec := vdiv (Vec3 (- vy pos) (vx pos) 0) r in
    let v_fluid := vscale tan_vec v_tan_mag in
    set_z v_fluid (LIFT_SPEED c).

(** [ReactorSystem.get_magnetic_target]: the magnetic trap position. *)
Definition get_magnetic_target (c : Config) (self : State) (t : R) : vec3 :=
  let omega_mag := (RPM_MAGNET c / 60.0) * 2 * PI in
  let angle := omega_mag * t in
  Vec3 (R_TANK c * cos angle) (R_TANK c * sin angle) (vz (pos self)).

(** The body of this file's [ReactorSystem.step], after the noise draw. *)
Definition step_body (c : Config) (self : State) (t noise : R)
  : State * StepResult :=
  (* 1. Soft-Start Logic *)
  let ramp_time := 20.0 in
  let current_target_vel :=
    if Rlt_dec t ramp_time then LIFT_SPEED c * (t / ramp_time)
    else LIFT_SPEED c in
  (* 2. Chemical Growth *)
  let cnt_length1 := cnt_length self + GROWTH_RATE c * DT c in
  let max_length_record1 :=
    if gtb cnt_length1 (max_length_record self) then cnt_length1
    else max_length_record self in
  (* 3. PID Control Loop (Induction Power) *)
  let measured_vel := current_z_vel_real self + noise in
  let z_error := current_target_vel - measured_vel in
  let pid_err_sum1 := clip (pid_err_sum self + z_error * DT c) (-0.5) 0.5 in
  let d_err := (z_error - pid_last_err self) / DT c in
  let kp := 80000.0 in
  let ki := 5000.0 in
  let kd := 500.0 in
  let adj := (kp * z_error) + (ki * pid_err_sum1) + (kd * d_err) in
  let power_input1 := clip (power_input self + adj * DT c) 0 150 in
  let pid_last_err1 := z_error in
  (* 4. Thermodynamics (Leidenfrost Mechanism) *)
  let cooling_loss := thermal_energy self * 2.0 in
  let d_energy := (power_input1 - cooling_loss) * DT c in
  let thermal_energy1 := Rmax 0 (thermal_energy self + d_energy) in
  let k_vol := 1.0e-13 in
  let r_vapor1 := fpow (thermal_energy1 * k_vol) (1 / 3) in
  (* 5. Forces & Mass *)
  let vol_core := (4 / 3) * PI * R_CORE c ^ 3 in
  let vol_vapor := (4 / 3) * PI * r_vapor1 ^ 3 in
  let vol_total := vol_core + vol_vapor in
  let mass_particle := vol_core * RHO_PARTICLE c in
  let vol_cnt := PI * (R_CNT c ^ 2) * cnt_length1 in
  let mass_cnt := vol_cnt * 2200.0 in
  let total_mass := mass_particle + mass_cnt in
  let f_buoy := vol_total * RHO_FLUID c * G c in
  let f_grav := total_mass * G c in
  let f_z_net := f_buoy - f_grav in
  let target_pos := get_magnetic_target c self t in
  let dist_vec := set_z (vsub target_pos (pos self)) 0 in
  let f_mag := vscale dist_vec (MAGNET_STIFFNESS c) in
  let omega_fluid := (RPM_FLUID c / 60.0) * 2 * PI in
  let f_cent :=
    vscale_l (total_mass * (omega_fluid ^ 2))
             (Vec3 (vx (pos self)) (vy (pos self)) 0) in
  (* 6. Hydrodynamics (Slender Body Theory) *)
  let r_eff_sphere := R_CORE c + r_vapor1 in
  let gamma_sphere := 6 * PI * VISCOSITY c * r_eff_sphere in
  let gamma_cnt :=
    if gtb cnt_length1 (10 * R_CNT c) then
      let eps := (2 * cnt_length1) / R_CNT c in
      let denom := ln eps - 0.5 in
      (2 * PI * VISCOSITY c * cnt_length1) / denom
    else 0 in
  let gamma_total := gamma_sphere + gamma_cnt in
  let f_external0 := vadd f_mag f_cent in
  let f_external := set_z f_external0 (vz f_external0 + f_z_net) in
  let v_drift := vdiv f_external gamma_total in
  let v_drift_mag := norm v_drift in
  let v_fluid := get_fluid_velocity_field c (pos self) in
  let v_total := vadd v_fluid v_drift in
  let pos1 := vadd (pos self) (vscale v_total (DT c)) in
  let current_z_vel_real1 := vz v_total in
  (* 7. Tear-Off Analysis (Mechanical Failure Check) *)
  let f_tension := v_drift_mag * gamma_cnt in
  let broken := gtb f_tension (ADHESION_LIMIT c) && gtb t 5.0 in
  let break_counter1 :=
    if broken then (break_counter self + 1)%Z else break_counter self in
  let cnt_length2 := if broken then 1e-9 else cnt_length1 in
  ({| pos := pos1;
      cnt_length := cnt_length2;
      break_counter := break_counter1;
      max_length_record := max_length_record1;
      thermal_energy := thermal_energy1;
      r_vapor := r_vapor1;
      power_input := power_input1;
      pid_err_sum := pid_err_sum1;
      pid_last_err := pid_last_err1;
      current_z_vel_real := current_z_vel_real1 |},
   {| res_pos := pos1;
      res_cnt_length := cnt_length2;
      res_power_input := power_input1;
      res_target_vel := current_target_vel;
      res_r_vapor := r_vapor1;
      res_tension := f_tension;
      res_broken := broken |}).

(** This file's [ReactorSystem.step(t)]. *)
Definition step (c : Config) (g : Generator) (self : State) (t : R)
  : (State * StepResult) * Generator :=
  let (noise, g1) := normal g 0 0.0002 in
  (step_body c self t noise, g1).

End MassProduction.

(** ** The stages of one step

    The intermediate quantities of [step], as functions under the names the
    source gives them.  [step_stages] below shows that [Precision.step_body]
    computes exactly these. *)
Section Stages.

Variable c : Config.

(** [current_target_vel]: the soft-start ramp (section 1 of [step]). *)
Definition current_target_vel (t : R) : R :=
  if Rlt_dec t 20.0 then LIFT_SPEED c * (t / 20.0) else LIFT_SPEED c.

(** [self.cnt_length] after the chemical growth (section 2). *)
Definition grown_length (self : State) : R :=
  cnt_length self + GROWTH_RATE c * DT c.

(** [z_error] (section 3). *)
Definition z_error (self : State) (t noise : R) : R :=
  current_target_vel t - (current_z_vel_real self + noise).

(** [self.pid_err_sum] after the anti-windup clamp. *)
Definition next_pid_err_sum (self : State) (t noise : R) : R :=
  clip (pid_err_sum self + z_error self t noise * DT c) (-0.5) 0.5.

(** [self.power_input] after the power clamp. *)
Definition next_power_input (self : State) (t noise : R) : R :=
  let adj := (80000.0 * z_error self t noise)
             + (5000.0 * next_pid_err_sum self t noise)
             + (500.0 * ((z_error self t noise - pid_last_err self) / DT c)) in
  clip (power_input self + adj * DT c) 0 150.

(** The energy balance of section 4, for a time step [dt], a power [P] and a
    stored energy [E]. *)
Definition energy_update (dt P E : R) : R :=
  Rmax 0 (E + (P - E * 2.0) * dt).

(** [self.thermal_energy] after the step. *)
Definition next_thermal_energy (self : State) (t noise : R) : R :=
  energy_update (DT c) (next_power_input self t noise) (thermal_energy self).

(** The vapor shell radius derived from a thermal energy. *)
Definition vapor_radius (E : R) : R := fpow (E * 1.0e-13) (1 / 3).

(** [self.r_vapor] after the step. *)
Definition next_r_vapor (self : State) (t noise : R) : R :=
  vapor_radius (next_thermal_energy self t noise).

(** [total_mass] (section 5), for a filament of length [len]. *)
Definition total_mass (len : R) : R :=
  ((4 / 3) * PI * R_CORE c ^ 3) * RHO_PARTICLE c
  + (PI * (R_CNT c ^ 2) * len) * 2200.0.

(** [f_buoy], for a vapor shell of radius [rv]. *)
Definition f_buoy (rv : R) : R :=
  ((4 / 3) * PI * R_CORE c ^ 3 + (4 / 3) * PI * rv ^ 3) * RHO_FLUID c * G c.

(** [f_grav]. *)
Definition f_grav (len : R) : R := total_mass len * G c.

(** [f_mag]: the spring force toward the trap, its z-component zeroed. *)
Definition f_mag (self : State) (t : R) : vec3 :=
  vscale (set_z (vsub (Precision.get_magnetic_target c self t) (pos self)) 0)
         (MAGNET_STIFFNESS c).

(** [f_cent]: the centrifugal force. *)
Definition f_cent (self : State) (len : R) : vec3 :=
  vscale_l (total_mass len * (((RPM_FLUID c / 60.0) * 2 * PI) ^ 2))
           (Vec3 (vx (pos self)) (vy (pos self)) 0).

(** [gamma_sphere] (section 6): Stokes drag on the core and its shell. *)
Definition gamma_sphere (rv : R) : R :=
  6 * PI * VISCOSITY c * (R_CORE c + rv).

(** [denom]: the logarithmic denominator of the slender-body correction. *)
Definition denom (len : R) : R := ln ((2 * len) / R_CNT c) - 0.5.

(** [gamma_cnt]: the drag of the filament. *)
Definition gamma_cnt (len : R) : R :=
  if gtb len (10 * R_CNT c) then (2 * PI * VISCOSITY c * len) / denom len
  else 0.

(** [gamma_total]. *)
Definition gamma_total (rv len : R) : R := gamma_sphere rv + gamma_cnt len.

(** [f_external], after [f_external[2] += f_z_net]. *)
Definition f_external (self : State) (t rv len : R) : vec3 :=
  let f0 := vadd (f_mag self t) (f_cent self len) in
  set_z f0 (vz f0 + (f_buoy rv - f_grav len)).

(** [v_drift]: the overdamped drift velocity. *)
Definition v_drift (self : State) (t rv len : R) : vec3 :=
  vdiv (f_external self t rv len) (gamma_total rv len).

(** [f_tension] (section 7). *)
Definition f_tension (self : State) (t rv len : R) : R :=
  norm (v_drift self t rv len) * gamma_cnt len.

(** The state after [step(t)] under the generator [g]. *)
Definition next_state (g : Generator) (self : State) (t : R) : State :=
  fst (fst (Precision.step c g self t)).

(** The tuple returned by [step(t)] under the generator [g]. *)
Definition result (g : Generator) (self : State) (t : R) : StepResult :=
  snd (fst (Precision.step c g self t)).

(** The noise sample [step] draws under the generator [g]. *)
Definition drawn_noise (g : Generator) : R := fst (normal g 0 0.0002).

(** The states the driver can reach: [ReactorSystem()] followed by any
    number of calls of [step], at any elapsed times and whatever the
    generator delivers. *)
Inductive reachable : State -> Prop :=
| reach_init : reachable (init c)
| reach_step : forall (g : Generator) (self : State) (t : R),
    reachable self -> reachable (next_state g self t).

End Stages.

(** ** Calls that return and calls that raise *)

(** What a Python call does: it returns a value or it raises. *)
Inductive outcome (A : Type) : Type :=
| Returned : A -> outcome A
| Raised : outcome A.
Arguments Returned {A} _.
Arguments Raised {A}.

(** [step] as a call.  Its body has no [raise] and no [assert], and none of
    its operations raises (the divisions by the drag coefficient and by the
    logarithmic denominator are numpy divisions): the call returns. *)
Definition step_call (c : Config) (g : Generator) (self : State) (t : R)
  : outcome (State * StepResult * Generator) :=
  Returned (Precision.step c g self t).

(** The step with the two checks that section 7 of the specification asks of
    an implementer: an assertion that the logarithmic denominator is positive
    whenever the slender-body branch is taken, and a fail-fast check that the
    total drag coefficient is positive before it divides. *)
Definition spec_guarded_step (c : Config) (g : Generator) (self : State) (t : R)
  : outcome (State * StepResult * Generator) :=
  let len := grown_length c self in
  let rv := next_r_vapor c self t (drawn_noise g) in
  if gtb len (10 * R_CNT c) && negb (gtb (denom c len) 0) then Raised
  else if negb (gtb (gamma_total c rv len) 0) then Raised
  else Returned (Precision.step c g self t).

(** ** Configurations and generators used below *)

(** A configuration with the three profile constants replaced. *)
Definition with_profile (c : Config) (viscosity rpm_magnet adhesion_limit : R)
  : Config :=
  {| G := G c;
     RHO_FLUID := RHO_FLUID c;
     RHO_PARTICLE := RHO_PARTICLE c;
     VISCOSITY := viscosity;
     R_TANK := R_TANK c;
     LIFT_SPEED := LIFT_SPEED c;
     RPM_FLUID := RPM_FLUID c;
     RPM_MAGNET := rpm_magnet;
     MAGNET_STIFFNESS := MAGNET_STIFFNESS c;
     R_CORE := R_CORE c;
     R_CNT := R_CNT c;
     GROWTH_RATE := GROWTH_RATE c;
     ADHESION_LIMIT := adhesion_limit;
     DT := DT c |}.

(** A configuration with the constants of the magnetic trap replaced. *)
Definition with_trap (c : Config) (r_tank rpm_magnet magnet_stiffness : R)
  : Config :=
  {| G := G c;
     RHO_FLUID := RHO_FLUID c;
     RHO_PARTICLE := RHO_PARTICLE c;
     VISCOSITY := VISCOSITY c;
     R_TANK := r_tank;
     LIFT_SPEED := LIFT_SPEED c;
     RPM_FLUID := RPM_FLUID c;
     RPM_MAGNET := rpm_magnet;
     MAGNET_STIFFNESS := magnet_stiffness;
     R_CORE := R_CORE c;
     R_CNT := R_CNT c;
     GROWTH_RATE := GROWTH_RATE c;
     ADHESION_LIMIT := ADHESION_LIMIT c;
     DT := DT c |}.

(** A state with the particle moved to [p]. *)
Definition with_pos (self : State) (p : vec3) : State :=
  {| pos := p;
     cnt_length := cnt_length self;
     break_counter := break_counter self;
     max_length_record := max_length_record self;
     thermal_energy := thermal_energy self;
     r_vapor := r_vapor self;
     power_input := power_input self;
     pid_err_sum := pid_err_sum self;
     pid_last_err := pid_last_err self;
     current_z_vel_real := current_z_vel_real self |}.

(** The precision constants with a fluid of no viscosity: a configuration in
    which the drag coefficient vanishes. *)
Definition inviscid : Config :=
  with_profile Precision.config 0 99.95 400e-9.

(** A generator that delivers the variate [z] at every draw. *)
Definition constant_generator (z : R) : Generator :=
  {| tape := fun _ => z; cursor := 0 |}.

(** The same generator once [n] variates have been consumed. *)
Definition constant_generator_after (z : R) (n : nat) : Generator :=
  {| tape := fun _ => z; cursor := n |}.

(** The precision run after its first call, [step(0)], with a noise of 0. *)
Definition after_first_step : State :=
  next_state Precision.config (constant_generator 0)
             (init Precision.config) 0.

(** ** Angular rates *)

(** [omega_fluid]: the angular rate of the fluid, as both
    [get_fluid_velocity_field] and [step] compute it. *)
Definition omega_fluid (c : Config) : R := (RPM_FLUID c / 60.0) * 2 * PI.

(** The time the magnet takes for one turn, in seconds. *)
Definition magnet_period (c : Config) : R := 60 / RPM_MAGNET c.

(** ** The driver loop of the main block

    The loop [for i in range(steps)] of the script: it calls [step] at
    [t = i * DT], samples every 1000th result into the two history lists and
    writes a console row for every break and for every [log_interval]-th and
    the last step.  The text of a row is not modelled, only which step it
    reports and with which status.  [steps] is [int(TOTAL_TIME/DT)] and
    [log_interval] is [steps // 25] (in the mass-production file
    [steps // 10]); the loop takes the divisor as [parts]. *)

(** A console row written by the loop (the header printed before the loop
    is not part of the model): the step it reports and whether its status is
    [!!!SNAP] (otherwise [OK]). *)
Record Row : Type := MkRow { row_step : nat; row_snap : bool }.

(** The variables of the main block that the loop updates. *)
Record Driver : Type := MkDriver {
  sim : State;
  rng : Generator;
  history_pos : list vec3;
  history_meta : list (list R);
  console : list Row
}.

(** The variables before the loop: [sim = ReactorSystem()], empty
    histories, and no row written yet. *)
Definition start (c : Config) (g : Generator) : Driver :=
  {| sim := init c; rng := g;
     history_pos := []; history_meta := []; console := [] |}.

(** One pass through the body of the loop.  [i % log_interval] raises
    [ZeroDivisionError] when [log_interval] is 0; Python evaluates it only
    when the step did not break. *)
Definition iteration (c : Config) (steps log_interval : nat)
  (d : Driver) (i : nat) : outcome Driver :=
  let t := INR i * DT c in
  let sim1 := next_state c (rng d) (sim d) t in
  let r := result c (rng d) (sim d) t in
  let rng1 := snd (Precision.step c (rng d) (sim d) t) in
  let sampled := (i mod 1000 =? 0)%nat in
  let history_pos1 :=
    if sampled then history_pos d ++ [res_pos r] else history_pos d in
  let history_meta1 :=
    if sampled then
      history_meta d ++
        [[t; res_cnt_length r; res_power_input r; res_target_vel r;
          current_z_vel_real sim1; res_r_vapor r; res_tension r]]
    else history_meta d in
  let written (rows : list Row) : Driver :=
    {| sim := sim1; rng := rng1;
       history_pos := history_pos1; history_meta := history_meta1;
       console := rows |} in
  if res_broken r then Returned (written (console d ++ [MkRow i true]))
  else
    match log_interval with
    | O => Raised
    | S _ =>
        if ((i mod log_interval =? 0) || (i =? steps - 1))%nat
        then Returned (written (console d ++ [MkRow i false]))
        else Returned (written (console d))
    end.

(** [for i in indices: body], stopping at the first exception. *)
Fixpoint for_each (body : Driver -> nat -> outcome Driver)
  (indices : list nat) (d : Driver) : outcome Driver :=
  match indices with
  | [] => Returned d
  | i :: rest =>
      match body d i with
      | Returned d1 => for_each body rest d1
      | Raised => Raised
      end
  end.

(** The loop of the main block for a run of [steps] steps. *)
Definition main_loop (parts : nat) (c : Config) (g : Generator) (steps : nat)
  : outcome Driver :=
  for_each (iteration c steps (steps / parts)) (seq 0 steps) (start c g).

(** The number of [!!!SNAP] rows on the console. *)
Definition snap_rows (rows : list Row) : nat :=
  length (filter row_snap rows).

(** A state on the tank wall, 0.05 m from the axis, used in examples. *)
Definition on_the_wall : vec3 := Vec3 0.05 0 0.

(** The precision constants with an adhesion limit of 0: any tension at all
    tears the filament off. *)
Definition no_adhesion : Config :=
  with_profile Precision.config 0.4e-3 99.95 0.

(** An unheated particle on the tank wall that carries a filament of one
    metre and rises at 0.12 mm/s, the target velocity at [t = 6]. *)
Definition metre_long : State :=
  {| pos := on_the_wall;
     cnt_length := 1;
     break_counter := 0%Z;
     max_length_record := 1;
     thermal_energy := 0;
     r_vapor := 0;
     power_input := 0;
     pid_err_sum := 0;
     pid_last_err := 0;
     current_z_vel_real := 0.00012 |}.

(** ** Two consecutive steps *)

(** The state after the two calls [step(t1)], [step(t2)] from the state
    [self], with the global generator in the state [g] before the first. *)
Definition two_steps (c : Config) (g : Generator) (self : State) (t1 t2 : R)
  : State :=
  next_state c (snd (Precision.step c g self t1))
             (next_state c g self t1) t2.

(** The elapsed time at which the precision magnet has made ten whole
    turns, about 6.003 s: the trap is then back at [(R_TANK, 0)]. *)
Definition ten_turns : R := INR 10 * magnet_period Precision.config.

(** A position inside the tank, 0.03 m short of the wall. *)
Definition off_the_trap : vec3 := Vec3 0.02 0 0.

(** ** Facts about the primitives *)

Lemma gtb_true_iff (a b : R) : gtb a b = true <-> b < a.
Proof.
  unfold gtb. destruct (Rlt_dec b a) as [Hlt | Hge].
  - split; [intros _; exact Hlt | reflexivity].
  - split; [discriminate | intros Hlt; contradiction].
Qed.

Lemma gtb_false_iff (a b : R) : gtb a b = false <-> a <= b.
Proof.
  unfold gtb. destruct (Rlt_dec b a) as [Hlt | Hge].
  - split; [discriminate | intros Hle; lra].
  - split; [intros _; lra | reflexivity].
Qed.

Lemma clip_bounds (x lo hi : R) : lo <= hi -> lo <= clip x lo hi <= hi.
Proof.
  intros Hlohi. unfold clip. split.
  - apply Rmin_glb; [exact Hlohi | apply Rmax_r].
  - apply Rmin_l.
Qed.

Lemma clip_above (x lo hi : R) : lo <= hi -> hi <= x -> clip x lo hi = hi.
Proof.
  intros Hlohi Hx. unfold clip. apply Rmin_left.
  apply Rle_trans with x; [exact Hx | apply Rmax_l].
Qed.

Lemma clip_inside (x lo hi : R) : lo <= x <= hi -> clip x lo hi = x.
Proof.
  intros [Hlo Hhi]. unfold clip.
  rewrite Rmax_left by exact Hlo. apply Rmin_right. exact Hhi.
Qed.

Lemma fpow_nonneg (x y : R) : 0 <= fpow x y.
Proof.
  unfold fpow. destruct (Rle_dec x 0).
  - apply Rle_refl.
  - unfold Rpower. left. apply exp_pos.
Qed.

Lemma fpow_monotone (x1 x2 y : R) :
  0 <= y -> x1 <= x2 -> fpow x1 y <= fpow x2 y.
Proof.
  intros Hy Hx. unfold fpow.
  destruct (Rle_dec x1 0) as [H1 | H1], (Rle_dec x2 0) as [H2 | H2].
  - apply Rle_refl.
  - unfold Rpower. left. apply exp_pos.
  - lra.
  - apply Rle_Rpower_l; [exact Hy | lra].
Qed.

(** ** The step in terms of its stages *)

Lemma step_stages (c : Config) (self : State) (t noise : R) :
  Precision.step_body c self t noise =
  let len := grown_length c self in
  let rv := next_r_vapor c self t noise in
  let tension := f_tension c self t rv len in
  let broken := gtb tension (ADHESION_LIMIT c) && gtb t 5.0 in
  let v_total := vadd (Precision.get_fluid_velocity_field c (pos self))
                      (v_drift c self t rv len) in
  let pos1 := vadd (pos self) (vscale v_total (DT c)) in
  let len2 := if broken then 1e-9 else len in
  ({| pos := pos1;
      cnt_length := len2;
      break_counter :=
        if broken then (break_counter self + 1)%Z else break_counter self;
      max_length_record :=
        if gtb len (max_length_record self) then len
        else max_length_record self;
      thermal_energy := next_thermal_energy c self t noise;
      r_vapor := rv;
      power_input := next_power_input c self t noise;
      pid_err_sum := next_pid_err_sum c self t noise;
      pid_last_err := z_error c self t noise;
      current_z_vel_real := vz v_total |},
   {| res_pos := pos1;
      res_cnt_length := len2;
      res_power_input := next_power_input c self t noise;
      res_target_vel := current_target_vel c t;
      res_r_vapor := rv;
      res_tension := tension;
      res_broken := broken |}).
Proof. reflexivity. Qed.

Lemma step_draws (c : Config) (g : Generator) (self : State) (t : R) :
  fst (Precision.step c g self t)
  = Precision.step_body c self t (drawn_noise g).
Proof. reflexivity. Qed.

Lemma next_state_stages (c : Config) (g : Generator) (self : State) (t : R) :
  next_state c g self t
  = fst (Precision.step_body c self t (drawn_noise g)).
Proof. reflexivity. Qed.

Lemma result_stages (c : Config) (g : Generator) (self : State) (t : R) :
  result c g self t
  = snd (Precision.step_body c self t (drawn_noise g)).
Proof. reflexivity. Qed.

(** Unfolds one call of [step] into its stages. *)
Ltac step_unfold :=
  unfold next_state, result;
  rewrite ?step_draws, ?step_stages;
  cbv zeta;
  cbn [fst snd pos cnt_length break_counter max_length_record thermal_energy
       r_vapor power_input pid_err_sum pid_last_err current_z_vel_real
       res_pos res_cnt_length res_power_input res_target_vel res_r_vapor
       res_tension res_broken].

(** ** The break detector *)

Lemma no_break_in_window (c : Config) (g : Generator) (self : State) (t : R) :
  t <= 5 -> res_broken (result c g self t) = false.
Proof.
  intros Ht. step_unfold.
  apply andb_false_iff. right. apply gtb_false_iff. lra.
Qed.

(** C1. The break flag of a step is true exactly when the computed tension
    strictly exceeds [ADHESION_LIMIT] and the elapsed time strictly exceeds
    5 s.  On those steps the break counter grows by one and the filament
    length (in the state and in the returned tuple) is the seed; on the other
    steps the counter is unchanged and the length is the grown one.  In both
    cases the length record is the larger of the old record and the grown
    length, hence never below the old record.  At [t <= 5] there is no
    break. *)
Theorem break_iff_tension_and_window
  (c : Config) (g : Generator) (self : State) (t : R) :
  let s' := next_state c g self t in
  let r := result c g self t in
  (res_broken r = true <-> ADHESION_LIMIT c < res_tension r /\ 5 < t) /\
  (res_broken r = true ->
     break_counter s' = (break_counter self + 1)%Z /\
     cnt_length s' = SEED_LENGTH /\ res_cnt_length r = SEED_LENGTH) /\
  (res_broken r = false ->
     break_counter s' = break_counter self /\
     cnt_length s' = grown_length c self) /\
  max_length_record s' = Rmax (max_length_record self) (grown_length c self) /\
  max_length_record self <= max_length_record s' /\
  (t <= 5 -> res_broken r = false).
Proof.
  step_unfold.
  set (rv := next_r_vapor c self t (drawn_noise g)).
  set (len := grown_length c self).
  set (tension := f_tension c self t rv len).
  assert (Hrecord :
    (if gtb len (max_length_record self) then len else max_length_record self)
    = Rmax (max_length_record self) len).
  { destruct (gtb len (max_length_record self)) eqn:Hgt.
    - apply gtb_true_iff in Hgt. rewrite Rmax_right; [reflexivity | lra].
    - apply gtb_false_iff in Hgt. rewrite Rmax_left; [reflexivity | lra]. }
  split; [split | split; [| split; [| split; [| split]]]].
  - intros Hb. apply andb_true_iff in Hb. destruct Hb as [Hten Ht].
    apply gtb_true_iff in Hten. apply gtb_true_iff in Ht. split; lra.
  - intros [Hten Ht]. apply andb_true_iff. split; apply gtb_true_iff; lra.
  - intros Hb. rewrite Hb. unfold SEED_LENGTH. auto.
  - intros Hb. rewrite Hb. auto.
  - exact Hrecord.
  - rewrite Hrecord. apply Rmax_l.
  - intros Ht. apply (no_break_in_window c g self t Ht).
Qed.

(** ** The fluid velocity field *)

Lemma fluid_velocity_z (c : Config) (p : vec3) :
  vz (Precision.get_fluid_velocity_field c p) = LIFT_SPEED c.
Proof.
  unfold Precision.get_fluid_velocity_field. cbv zeta.
  destruct (Rlt_dec (sqrt (vx p ^ 2 + vy p ^ 2)) 1e-6); reflexivity.
Qed.

Lemma fluid_velocity_near_axis (c : Config) (p : vec3) :
  sqrt (vx p ^ 2 + vy p ^ 2) < 1e-6 ->
  Precision.get_fluid_velocity_field c p = Vec3 0 0 (LIFT_SPEED c).
Proof.
  intros Hr. unfold Precision.get_fluid_velocity_field. cbv zeta.
  destruct (Rlt_dec (sqrt (vx p ^ 2 + vy p ^ 2)) 1e-6) as [_ | Hfar].
  - reflexivity.
  - contradiction.
Qed.

Lemma on_axis_radius (z : R) :
  sqrt (vx (Vec3 0 0 z) ^ 2 + vy (Vec3 0 0 z) ^ 2) = 0.
Proof.
  cbn [vx vy]. replace (0 ^ 2 + 0 ^ 2) with 0 by ring. apply sqrt_0.
Qed.

(** C8. At every position whose distance [r = sqrt (x^2 + y^2)] from the tank
    axis is below [1e-6], and in particular at every point [(0, 0, z)] of the
    axis, the velocity field is exactly [(0, 0, LIFT_SPEED)]; at every
    position whatsoever its axial component is [LIFT_SPEED]. *)
Theorem velocity_field_near_axis (c : Config) :
  (forall p : vec3,
     sqrt (vx p ^ 2 + vy p ^ 2) < 1e-6 ->
     Precision.get_fluid_velocity_field c p = Vec3 0 0 (LIFT_SPEED c)) /\
  (forall z : R,
     Precision.get_fluid_velocity_field c (Vec3 0 0 z)
     = Vec3 0 0 (LIFT_SPEED c)) /\
  (forall p : vec3,
     vz (Precision.get_fluid_velocity_field c p) = LIFT_SPEED c).
Proof.
  split; [| split].
  - apply fluid_velocity_near_axis.
  - intros z. apply fluid_velocity_near_axis.
    rewrite on_axis_radius. lra.
  - apply fluid_velocity_z.
Qed.

(** The near-axis test is strict: at distance exactly [1e-6] the field is the
    swirl, whose tangential component is [omega_fluid * 1e-6]. *)
Lemma velocity_field_at_threshold :
  Precision.get_fluid_velocity_field Precision.config (Vec3 1e-6 0 0)
  <> Vec3 0 0 (LIFT_SPEED Precision.config).
Proof.
  unfold Precision.get_fluid_velocity_field. cbv zeta. cbn [vx vy].
  replace (1e-6 ^ 2 + 0 ^ 2) with (Rsqr 1e-6) by (unfold Rsqr; ring).
  rewrite sqrt_Rsqr by lra.
  destruct (Rlt_dec 1e-6 1e-6) as [Habs | _]; [lra |].
  intros Heq. apply (f_equal vy) in Heq.
  cbn [vy vx vdiv vscale set_z Precision.config RPM_FLUID] in Heq.
  assert (Hpi := PI_RGT_0). lra.
Qed.

(** ** Filament drag and tension *)

Lemma gamma_cnt_short (c : Config) (len : R) :
  len <= 10 * R_CNT c -> gamma_cnt c len = 0.
Proof.
  intros Hshort. unfold gamma_cnt.
  apply gtb_false_iff in Hshort. rewrite Hshort. reflexivity.
Qed.

Lemma gamma_cnt_long (c : Config) (len : R) :
  10 * R_CNT c < len ->
  gamma_cnt c len = (2 * PI * VISCOSITY c * len) / denom c len.
Proof.
  intros Hlong. unfold gamma_cnt.
  apply gtb_true_iff in Hlong. rewrite Hlong. reflexivity.
Qed.

(** C7. On a step whose grown filament length is at most [10 * R_CNT] the
    filament drag is 0 and the returned tension is exactly 0; on a step
    whose grown length exceeds [10 * R_CNT] the filament drag is
    [2 PI VISCOSITY length / (ln (2 length / R_CNT) - 0.5)]; and on every step
    the returned tension is the norm of the drift velocity times the
    filament drag. *)
Theorem short_filament_no_tension
  (c : Config) (g : Generator) (self : State) (t : R) :
  let len := grown_length c self in
  let rv := r_vapor (next_state c g self t) in
  (len <= 10 * R_CNT c ->
     gamma_cnt c len = 0 /\ res_tension (result c g self t) = 0) /\
  (10 * R_CNT c < len ->
     gamma_cnt c len
     = (2 * PI * VISCOSITY c * len) / (ln ((2 * len) / R_CNT c) - 0.5)) /\
  res_tension (result c g self t)
  = norm (v_drift c self t rv len) * gamma_cnt c len.
Proof.
  step_unfold. split; [| split].
  - intros Hshort. split.
    + apply gamma_cnt_short. exact Hshort.
    + unfold f_tension. rewrite (gamma_cnt_short c _ Hshort). ring.
  - intros Hlong. apply gamma_cnt_long. exact Hlong.
  - reflexivity.
Qed.

(** ** The vertical velocity fed back to the controller *)

Lemma drift_z (c : Config) (self : State) (t rv len : R) :
  vz (v_drift c self t rv len)
  = (f_buoy c rv - f_grav c len) / gamma_total c rv len.
Proof.
  unfold v_drift, f_external, f_mag, f_cent. cbv zeta.
  cbn [vz vdiv set_z vadd vscale vscale_l]. unfold Rdiv. ring.
Qed.

Lemma next_vertical_velocity
  (c : Config) (g : Generator) (self : State) (t : R) :
  current_z_vel_real (next_state c g self t)
  = LIFT_SPEED c
    + (f_buoy c (next_r_vapor c self t (drawn_noise g))
       - f_grav c (grown_length c self))
      / gamma_total c (next_r_vapor c self t (drawn_noise g))
                    (grown_length c self).
Proof.
  step_unfold. cbn [vz vadd]. rewrite fluid_velocity_z, drift_z. reflexivity.
Qed.

(** C10, as the code has it.  After every step the real vertical velocity is
    exactly [LIFT_SPEED + (f_buoy - f_grav) / gamma_total], where the buoyancy
    is a function of the vapor radius and the gravity of the filament length
    alone.  Within that one step neither the particle's position nor the
    constants of the magnetic trap (tank radius, magnet speed, magnet
    stiffness) influence it: from a state that is otherwise the same, moving
    the particle and changing the trap leaves the vertical velocity the step
    computes unchanged.  (Over later steps they can reach it, through a break
    that resets the filament length.) *)
Theorem vertical_velocity_ignores_trap
  (c : Config) (g : Generator) (self : State) (t : R) :
  let s' := next_state c g self t in
  let len := grown_length c self in
  current_z_vel_real s'
  = LIFT_SPEED c
    + (f_buoy c (r_vapor s') - f_grav c len) / gamma_total c (r_vapor s') len
  /\
  forall (p : vec3) (r_tank rpm_magnet magnet_stiffness : R),
    current_z_vel_real
      (next_state (with_trap c r_tank rpm_magnet magnet_stiffness) g
                  (with_pos self p) t)
    = current_z_vel_real s'.
Proof.
  cbv zeta. split.
  - rewrite next_vertical_velocity. reflexivity.
  - intros p r_tank rpm_magnet magnet_stiffness.
    rewrite !next_vertical_velocity. reflexivity.
Qed.

(** ** Invariants of the reachable states *)

Lemma energy_update_nonneg (dt P E : R) : 0 <= energy_update dt P E.
Proof. unfold energy_update. apply Rmax_l. Qed.

Lemma energy_update_bounded (dt P E : R) :
  0 < dt <= 1 / 2 -> P <= 150 -> E <= 75 -> energy_update dt P E <= 75.
Proof.
  intros [Hdt0 Hdt1] HP HE. unfold energy_update.
  apply Rmax_lub; [lra |].
  replace (E + (P - E * 2.0) * dt) with (E * (1 - 2 * dt) + P * dt) by lra.
  assert (Hshrink : E * (1 - 2 * dt) <= 75 * (1 - 2 * dt))
    by (apply Rmult_le_compat_r; lra).
  assert (Hheat : P * dt <= 150 * dt)
    by (apply Rmult_le_compat_r; lra).
  lra.
Qed.

Lemma next_power_input_bounds (c : Config) (self : State) (t noise : R) :
  0 <= next_power_input c self t noise <= 150.
Proof. unfold next_power_input. cbv zeta. apply clip_bounds. lra. Qed.

Lemma next_pid_err_sum_bounds (c : Config) (self : State) (t noise : R) :
  -0.5 <= next_pid_err_sum c self t noise <= 0.5.
Proof. unfold next_pid_err_sum. apply clip_bounds. lra. Qed.

(** The base of the cube root in [step] is never negative, so [fpow] is
    only used where Python's [**] on floats is real-valued. *)
Lemma vapor_base_nonneg (c : Config) (self : State) (t noise : R) :
  0 <= next_thermal_energy c self t noise * 1.0e-13.
Proof.
  assert (HE := energy_update_nonneg (DT c) (next_power_input c self t noise)
                  (thermal_energy self)).
  unfold next_thermal_energy. apply Rmult_le_pos; lra.
Qed.

Lemma vapor_radius_nonneg (E : R) : 0 <= vapor_radius E.
Proof. unfold vapor_radius. apply fpow_nonneg. Qed.

Lemma vapor_radius_monotone (E1 E2 : R) :
  E1 <= E2 -> vapor_radius E1 <= vapor_radius E2.
Proof.
  intros HE. unfold vapor_radius. apply fpow_monotone; lra.
Qed.

(** C3. In every state reachable from the initial one, whatever the noise
    samples and elapsed times, [0 <= power_input <= 150],
    [-0.5 <= pid_err_sum <= 0.5], [thermal_energy >= 0] and
    [r_vapor >= 0]. *)
Theorem clamped_state_invariant (c : Config) (s : State) :
  reachable c s ->
  0 <= power_input s <= 150 /\
  -0.5 <= pid_err_sum s <= 0.5 /\
  0 <= thermal_energy s /\
  0 <= r_vapor s.
Proof.
  intros Hreach. induction Hreach as [| g self t _ _].
  - cbn [init power_input pid_err_sum thermal_energy r_vapor]. lra.
  - step_unfold. split; [| split; [| split]].
    + apply next_power_input_bounds.
    + apply next_pid_err_sum_bounds.
    + apply energy_update_nonneg.
    + apply vapor_radius_nonneg.
Qed.

(** C9. For a time step [0 < DT <= 0.5] the energy balance keeps a stored
    energy of at most 75 at most 75 whenever the power is at most 150; hence in
    every reachable state [thermal_energy <= 75] and
    [r_vapor <= (75 * 1e-13) ** (1/3)]. *)
Theorem thermal_energy_bounded (c : Config) :
  0 < DT c <= 1 / 2 ->
  (forall P E : R, P <= 150 -> E <= 75 -> energy_update (DT c) P E <= 75) /\
  (forall s : State,
     reachable c s ->
     thermal_energy s <= 75 /\ r_vapor s <= fpow (75 * 1e-13) (1 / 3)).
Proof.
  intros Hdt. split.
  - intros P E HP HE. apply energy_update_bounded; assumption.
  - intros s Hreach. induction Hreach as [| g self t _ [IHE _]].
    + cbn [init thermal_energy r_vapor]. split; [lra | apply fpow_nonneg].
    + assert (HE : next_thermal_energy c self t (drawn_noise g) <= 75).
      { unfold next_thermal_energy. apply energy_update_bounded.
        - exact Hdt.
        - apply next_power_input_bounds.
        - exact IHE. }
      step_unfold. split.
      * exact HE.
      * unfold next_r_vapor.
        replace (fpow (75 * 1e-13) (1 / 3)) with (vapor_radius 75)
          by (unfold vapor_radius; f_equal; lra).
        apply vapor_radius_monotone. exact HE.
Qed.

(** C4. With a positive growth per step [GROWTH_RATE * DT]: on every step
    without a break the filament length grows by exactly [GROWTH_RATE * DT],
    hence strictly; on every step with a break the returned length and the
    stored length are exactly [1e-9]; and in every reachable state the length
    is at least the seed [1e-9]. *)
Theorem filament_growth_and_reset (c : Config) :
  0 < GROWTH_RATE c * DT c ->
  (forall (g : Generator) (self : State) (t : R),
     res_broken (result c g self t) = false ->
     cnt_length (next_state c g self t)
     = cnt_length self + GROWTH_RATE c * DT c /\
     cnt_length self < cnt_length (next_state c g self t) /\
     res_cnt_length (result c g self t) = cnt_length (next_state c g self t))
  /\
  (forall (g : Generator) (self : State) (t : R),
     res_broken (result c g self t) = true ->
     res_cnt_length (result c g self t) = 1e-9 /\
     cnt_length (next_state c g self t) = 1e-9)
  /\
  (forall s : State, reachable c s -> 1e-9 <= cnt_length s).
Proof.
  intros Hgrow. split; [| split].
  - intros g self t. step_unfold. intros Hb. rewrite Hb.
    unfold grown_length. repeat split; lra.
  - intros g self t. step_unfold. intros Hb. rewrite Hb. split; reflexivity.
  - intros s Hreach. induction Hreach as [| g self t _ IH].
    + cbn [init cnt_length]. unfold SEED_LENGTH. lra.
    + step_unfold.
      destruct (gtb _ (ADHESION_LIMIT c) && gtb t 5.0).
      * lra.
      * unfold grown_length. lra.
Qed.

(** ** The drag coefficients are positive *)

Lemma ln_20_above_half (x : R) : 20 < x -> 1 / 2 < ln x.
Proof.
  intros Hx.
  assert (Hexp : exp (1 / 2) < 20).
  { apply Rlt_le_trans with (exp 1).
    - apply exp_increasing. lra.
    - apply Rle_trans with 3; [apply exp_le_3 | lra]. }
  rewrite <- (ln_exp (1 / 2)).
  apply ln_increasing; [apply exp_pos | lra].
Qed.

Lemma denom_positive (c : Config) (len : R) :
  0 < R_CNT c -> 10 * R_CNT c < len -> 0 < denom c len.
Proof.
  intros Hr Hlong. unfold denom.
  assert (Heps : 20 < (2 * len) / R_CNT c).
  { apply Rmult_lt_reg_r with (R_CNT c); [exact Hr |].
    replace ((2 * len) / R_CNT c * R_CNT c) with (2 * len)
      by (field; lra).
    lra. }
  apply ln_20_above_half in Heps. lra.
Qed.

Lemma gamma_cnt_nonneg (c : Config) (len : R) :
  0 < VISCOSITY c -> 0 < R_CNT c -> 0 <= gamma_cnt c len.
Proof.
  intros Hvisc Hr. unfold gamma_cnt.
  destruct (gtb len (10 * R_CNT c)) eqn:Hgate; [| apply Rle_refl].
  apply gtb_true_iff in Hgate.
  assert (Hden := denom_positive c len Hr Hgate).
  assert (Hpi := PI_RGT_0).
  left. apply Rdiv_lt_0_compat; [| exact Hden].
  apply Rmult_lt_0_compat; [| lra].
  apply Rmult_lt_0_compat; [lra | exact Hvisc].
Qed.

Lemma gamma_sphere_positive (c : Config) (rv : R) :
  0 < VISCOSITY c -> 0 < R_CORE c -> 0 <= rv -> 0 < gamma_sphere c rv.
Proof.
  intros Hvisc Hcore Hrv. unfold gamma_sphere.
  assert (Hpi := PI_RGT_0).
  apply Rmult_lt_0_compat; [| lra].
  apply Rmult_lt_0_compat; [lra | exact Hvisc].
Qed.

Lemma gamma_total_positive (c : Config) (rv len : R) :
  0 < VISCOSITY c -> 0 < R_CORE c -> 0 < R_CNT c -> 0 <= rv ->
  0 < gamma_total c rv len.
Proof.
  intros Hvisc Hcore Hr Hrv. unfold gamma_total.
  assert (Hs := gamma_sphere_positive c rv Hvisc Hcore Hrv).
  assert (Hf := gamma_cnt_nonneg c len Hvisc Hr).
  lra.
Qed.

(** C2, as the code has it.  [step] carries no check: it returns whatever
    the drag coefficient is.  With a positive viscosity, core radius and
    filament radius, on every step (from any state, at any time, for any
    noise) the logarithmic denominator is positive whenever the slender-body
    branch is taken and the total drag coefficient is positive; so the step
    guarded as the specification asks never takes an error branch and
    coincides with the code. *)
Theorem drag_positive_under_gate
  (c : Config) (g : Generator) (self : State) (t : R) :
  0 < VISCOSITY c -> 0 < R_CORE c -> 0 < R_CNT c ->
  let len := grown_length c self in
  let rv := r_vapor (next_state c g self t) in
  (10 * R_CNT c < len -> 0 < denom c len) /\
  0 < gamma_total c rv len /\
  spec_guarded_step c g self t = step_call c g self t.
Proof.
  intros Hvisc Hcore Hr. step_unfold.
  assert (Hrv : 0 <= next_r_vapor c self t (drawn_noise g))
    by apply vapor_radius_nonneg.
  assert (Htotal := gamma_total_positive c _ (grown_length c self)
                      Hvisc Hcore Hr Hrv).
  split; [| split].
  - apply denom_positive. exact Hr.
  - exact Htotal.
  - unfold spec_guarded_step, step_call. cbv zeta.
    apply gtb_true_iff in Htotal. rewrite Htotal.
    destruct (gtb (grown_length c self) (10 * R_CNT c)) eqn:Hgate.
    + apply gtb_true_iff in Hgate.
      assert (Hden := denom_positive c _ Hr Hgate).
      apply gtb_true_iff in Hden. rewrite Hden. reflexivity.
    + reflexivity.
Qed.

Lemma drag_positive_under_gate_witness :
  0 < gamma_total Precision.config (r_vapor after_first_step)
        (grown_length Precision.config (init Precision.config)) /\
  spec_guarded_step Precision.config (constant_generator 0)
               (init Precision.config) 0
  = step_call Precision.config (constant_generator 0)
              (init Precision.config) 0.
Proof.
  assert (Hvisc : 0 < VISCOSITY Precision.config) by (cbn; lra).
  assert (Hcore : 0 < R_CORE Precision.config) by (cbn; lra).
  assert (Hr : 0 < R_CNT Precision.config) by (cbn; lra).
  exact (proj2 (drag_positive_under_gate Precision.config
                  (constant_generator 0) (init Precision.config) 0
                  Hvisc Hcore Hr)).
Defined.

(** C2, as the specification words it, fails: the code is not the guarded
    step.  In a fluid of no viscosity the first step has a total drag
    coefficient of 0; the guarded step raises there, the code returns. *)
Lemma step_has_no_drag_check :
  gamma_total inviscid
    (next_r_vapor inviscid (init inviscid) 0
                  (drawn_noise (constant_generator 0)))
    (grown_length inviscid (init inviscid)) = 0 /\
  spec_guarded_step inviscid (constant_generator 0) (init inviscid) 0 = Raised /\
  step_call inviscid (constant_generator 0) (init inviscid) 0
  <> spec_guarded_step inviscid (constant_generator 0) (init inviscid) 0.
Proof.
  assert (Hshort :
    gtb (grown_length inviscid (init inviscid)) (10 * R_CNT inviscid)
    = false).
  { apply gtb_false_iff. unfold grown_length.
    cbn [inviscid with_profile Precision.config init cnt_length
         GROWTH_RATE DT R_CNT].
    unfold SEED_LENGTH. lra. }
  assert (Hzero : forall rv,
    gamma_total inviscid rv (grown_length inviscid (init inviscid)) = 0).
  { intros rv. unfold gamma_total, gamma_cnt. rewrite Hshort.
    unfold gamma_sphere. cbn [inviscid with_profile VISCOSITY]. ring. }
  assert (Hraised :
    spec_guarded_step inviscid (constant_generator 0) (init inviscid) 0 = Raised).
  { unfold spec_guarded_step. cbv zeta. rewrite Hshort, Hzero.
    cbn [andb]. replace (gtb 0 0) with false; [reflexivity |].
    symmetry. apply gtb_false_iff. lra. }
  split; [apply Hzero | split; [exact Hraised |]].
  rewrite Hraised. unfold step_call. discriminate.
Qed.

Lemma clamped_state_invariant_witness :
  0 <= power_input after_first_step <= 150 /\
  -0.5 <= pid_err_sum after_first_step <= 0.5 /\
  0 <= thermal_energy after_first_step /\
  0 <= r_vapor after_first_step.
Proof.
  apply (clamped_state_invariant Precision.config after_first_step).
  unfold after_first_step. apply reach_step. apply reach_init.
Defined.

Lemma thermal_energy_bounded_witness :
  thermal_energy after_first_step <= 75 /\
  r_vapor after_first_step <= fpow (75 * 1e-13) (1 / 3).
Proof.
  assert (Hdt : 0 < DT Precision.config <= 1 / 2)
    by (cbn [Precision.config DT]; lra).
  apply (proj2 (thermal_energy_bounded Precision.config Hdt)).
  unfold after_first_step. apply reach_step. apply reach_init.
Defined.

Lemma filament_growth_and_reset_witness :
  (cnt_length after_first_step = 1e-9 + 80e-6 * 0.0005 /\
   1e-9 < cnt_length after_first_step) /\
  1e-9 <= cnt_length after_first_step.
Proof.
  assert (Hgrow : 0 < GROWTH_RATE Precision.config * DT Precision.config)
    by (cbn [Precision.config GROWTH_RATE DT]; lra).
  assert (Hwindow : 0 <= 5) by lra.
  destruct (filament_growth_and_reset Precision.config Hgrow)
    as [Hgrown [_ Hseed]].
  split.
  - destruct (Hgrown (constant_generator 0) (init Precision.config) 0
                (no_break_in_window Precision.config (constant_generator 0)
                   (init Precision.config) 0 Hwindow))
      as [Hlen [Hstrict _]].
    split; [exact Hlen | exact Hstrict].
  - apply Hseed. unfold after_first_step. apply reach_step. apply reach_init.
Defined.

(** ** One engine, two configurations *)

(** C5. The two files hold the same engine: their velocity fields, magnetic
    targets and steps agree on every configuration, state, elapsed time and
    generator (hence on every noise sample); their constants agree once the
    viscosity, the magnet speed and the adhesion limit are made parameters,
    so the two steps with these three constants abstracted are extensionally
    equal; and each file's constants are the other's with these three
    replaced. *)
Theorem variants_are_one_engine :
  (forall (c : Config) (p : vec3),
     Precision.get_fluid_velocity_field c p
     = MassProduction.get_fluid_velocity_field c p) /\
  (forall (c : Config) (self : State) (t : R),
     Precision.get_magnetic_target c self t
     = MassProduction.get_magnetic_target c self t) /\
  (forall (c : Config) (self : State) (t noise : R),
     Precision.step_body c self t noise
     = MassProduction.step_body c self t noise) /\
  (forall (c : Config) (g : Generator) (self : State) (t : R),
     Precision.step c g self t = MassProduction.step c g self t) /\
  (forall (viscosity rpm_magnet adhesion_limit : R)
          (g : Generator) (self : State) (t : R),
     Precision.step
       (with_profile Precision.config viscosity rpm_magnet adhesion_limit)
       g self t
     = MassProduction.step
         (with_profile MassProduction.config viscosity rpm_magnet
                       adhesion_limit)
         g self t) /\
  MassProduction.config = with_profile Precision.config 0.6e-3 99.8 300e-9 /\
  Precision.config = with_profile MassProduction.config 0.4e-3 99.95 400e-9.
Proof.
  repeat match goal with |- _ /\ _ => split end; reflexivity.
Qed.

(** ** Determinism and the noise *)

Lemma first_step_error (z : R) :
  z_error Precision.config (init Precision.config) 0
          (drawn_noise (constant_generator z))
  = - (0.0002 * z).
Proof.
  unfold z_error, current_target_vel, drawn_noise, normal, constant_generator.
  cbn [fst tape cursor init current_z_vel_real Precision.config LIFT_SPEED].
  destruct (Rlt_dec 0 20.0) as [_ | Habs]; lra.
Qed.

Lemma first_step_power_quiet :
  next_power_input Precision.config (init Precision.config) 0
                   (drawn_noise (constant_generator 0)) = 0.
Proof.
  unfold next_power_input, next_pid_err_sum. cbv zeta.
  rewrite first_step_error.
  cbn [init power_input pid_err_sum pid_last_err Precision.config DT].
  rewrite (clip_inside _ (-0.5) 0.5) by lra.
  rewrite (clip_inside _ 0 150) by lra. lra.
Qed.

Lemma first_step_power_noisy :
  next_power_input Precision.config (init Precision.config) 0
                   (drawn_noise (constant_generator (-5000))) = 150.
Proof.
  unfold next_power_input, next_pid_err_sum. cbv zeta.
  rewrite first_step_error.
  cbn [init power_input pid_err_sum pid_last_err Precision.config DT].
  rewrite (clip_inside _ (-0.5) 0.5) by lra.
  apply clip_above; lra.
Qed.

(** C6, as the code has it.  The noise is not an argument of [step]: the
    step draws it from the generator.  It is the only thing the step takes
    from the generator: two calls from equal states at equal elapsed times
    for which the generator delivers equal noise samples produce equal
    successor states and equal returned tuples. *)
Theorem step_deterministic_given_noise
  (c : Config) (g1 g2 : Generator) (self : State) (t : R) :
  drawn_noise g1 = drawn_noise g2 ->
  next_state c g1 self t = next_state c g2 self t /\
  result c g1 self t = result c g2 self t.
Proof.
  intros Hnoise. unfold next_state, result.
  rewrite !step_draws, Hnoise. split; reflexivity.
Qed.

Lemma step_deterministic_given_noise_witness :
  next_state Precision.config (constant_generator 1)
             (init Precision.config) 0
  = next_state Precision.config (constant_generator_after 1 7)
               (init Precision.config) 0 /\
  result Precision.config (constant_generator 1) (init Precision.config) 0
  = result Precision.config (constant_generator_after 1 7)
           (init Precision.config) 0.
Proof.
  apply (step_deterministic_given_noise Precision.config
           (constant_generator 1) (constant_generator_after 1 7)).
  reflexivity.
Defined.

(** C6, as the specification words it, fails: were the noise an input of the
    caller, equal states and equal elapsed times would give equal results
    whatever the state of the global generator.  They do not: from the
    initial state at
    [t = 0], a generator about to deliver 0 leaves the power at 0, one about
    to deliver -5000 (a noise of -1) drives it to the clamp 150. *)
Lemma step_reads_hidden_generator :
  next_state Precision.config (constant_generator 0)
             (init Precision.config) 0
  <> next_state Precision.config (constant_generator (-5000))
                (init Precision.config) 0 /\
  result Precision.config (constant_generator 0) (init Precision.config) 0
  <> result Precision.config (constant_generator (-5000))
            (init Precision.config) 0.
Proof.
  split; intros Heq.
  - apply (f_equal power_input) in Heq. revert Heq. step_unfold.
    rewrite first_step_power_quiet, first_step_power_noisy. lra.
  - apply (f_equal res_power_input) in Heq. revert Heq. step_unfold.
    rewrite first_step_power_quiet, first_step_power_noisy. lra.
Qed.

(** ** The soft-start ramp *)

Lemma current_target_vel_bounds (c : Config) (t : R) :
  0 <= LIFT_SPEED c -> 0 <= t ->
  0 <= current_target_vel c t <= LIFT_SPEED c.
Proof.
  intros Hlift Ht. unfold current_target_vel.
  destruct (Rlt_dec t 20.0) as [Hramp | Hfull]; [| lra].
  assert (Hfrac : 0 <= t / 20.0 <= 1) by lra.
  split.
  - apply Rmult_le_pos; lra.
  - rewrite <- (Rmult_1_r (LIFT_SPEED c)) at 2.
    apply Rmult_le_compat_l; lra.
Qed.

Lemma current_target_vel_monotone (c : Config) (t1 t2 : R) :
  0 <= LIFT_SPEED c -> 0 <= t1 <= t2 ->
  current_target_vel c t1 <= current_target_vel c t2.
Proof.
  intros Hlift Ht.
  assert (Hb1 := current_target_vel_bounds c t1 Hlift (proj1 Ht)).
  unfold current_target_vel in *.
  destruct (Rlt_dec t1 20.0) as [H1 | H1], (Rlt_dec t2 20.0) as [H2 | H2].
  - apply Rmult_le_compat_l; lra.
  - exact (proj2 Hb1).
  - lra.
  - lra.
Qed.

(** X1. For a non-negative lift speed and elapsed times [0 <= t1 <= t2], the
    target velocity a step reports never decreases with the elapsed time,
    whatever the states and noise of the two steps, stays between 0 and
    [LIFT_SPEED], and is exactly [LIFT_SPEED] from 20 s on. *)
Theorem soft_start_ramp
  (c : Config) (g1 g2 : Generator) (s1 s2 : State) (t1 t2 : R) :
  0 <= LIFT_SPEED c -> 0 <= t1 <= t2 ->
  0 <= res_target_vel (result c g1 s1 t1) /\
  res_target_vel (result c g1 s1 t1) <= res_target_vel (result c g2 s2 t2) /\
  res_target_vel (result c g2 s2 t2) <= LIFT_SPEED c /\
  (20 <= t2 -> res_target_vel (result c g2 s2 t2) = LIFT_SPEED c).
Proof.
  intros Hlift Ht. step_unfold.
  assert (Ht2 : 0 <= t2) by lra.
  split; [| split; [| split]].
  - apply (current_target_vel_bounds c t1 Hlift (proj1 Ht)).
  - apply current_target_vel_monotone; assumption.
  - apply (current_target_vel_bounds c t2 Hlift Ht2).
  - intros Hfull. unfold current_target_vel.
    destruct (Rlt_dec t2 20.0) as [Hramp | _]; [lra | reflexivity].
Qed.

Lemma soft_start_ramp_witness :
  res_target_vel
    (result Precision.config (constant_generator 0)
            (init Precision.config) 10)
  <= res_target_vel
       (result Precision.config (constant_generator 1) after_first_step 30).
Proof.
  assert (Hlift : 0 <= LIFT_SPEED Precision.config)
    by (cbn [Precision.config LIFT_SPEED]; lra).
  assert (Ht : 0 <= 10 <= 30) by lra.
  exact (proj1 (proj2 (soft_start_ramp Precision.config
                         (constant_generator 0) (constant_generator 1)
                         (init Precision.config) after_first_step 10 30
                         Hlift Ht))).
Defined.

(** ** The swirl of the fluid *)

Lemma lateral_radius_nonneg (p : vec3) : 0 <= sqrt (vx p ^ 2 + vy p ^ 2).
Proof. apply sqrt_pos. Qed.

Lemma swirl_field (c : Config) (p : vec3) :
  1e-6 <= sqrt (vx p ^ 2 + vy p ^ 2) ->
  Precision.get_fluid_velocity_field c p
  = Vec3 (- (omega_fluid c * vy p)) (omega_fluid c * vx p) (LIFT_SPEED c).
Proof.
  intros Hfar. unfold Precision.get_fluid_velocity_field. cbv zeta.
  destruct (Rlt_dec (sqrt (vx p ^ 2 + vy p ^ 2)) 1e-6) as [Hnear | _];
    [lra |].
  set (r := sqrt (vx p ^ 2 + vy p ^ 2)) in *.
  assert (Hr : r <> 0) by lra.
  unfold set_z, vscale, vdiv, omega_fluid. cbn [vx vy vz].
  f_equal; field; repeat split; lra.
Qed.

(** X2. At every position at least [1e-6] away from the tank axis the fluid
    turns as a rigid body: the velocity is
    [(- omega_fluid * y, omega_fluid * x, LIFT_SPEED)], its lateral part is
    perpendicular to the radius and its lateral speed is
    [|omega_fluid|] times the distance from the axis. *)
Theorem swirl_is_rigid_rotation (c : Config) (p : vec3) :
  1e-6 <= sqrt (vx p ^ 2 + vy p ^ 2) ->
  let v := Precision.get_fluid_velocity_field c p in
  v = Vec3 (- (omega_fluid c * vy p)) (omega_fluid c * vx p) (LIFT_SPEED c) /\
  vx p * vx v + vy p * vy v = 0 /\
  sqrt (vx v ^ 2 + vy v ^ 2)
  = Rabs (omega_fluid c) * sqrt (vx p ^ 2 + vy p ^ 2).
Proof.
  intros Hfar. cbv zeta. rewrite (swirl_field c p Hfar). cbn [vx vy].
  split; [reflexivity | split; [ring |]].
  replace ((- (omega_fluid c * vy p)) ^ 2 + (omega_fluid c * vx p) ^ 2)
    with (Rsqr (omega_fluid c) * (vx p ^ 2 + vy p ^ 2))
    by (unfold Rsqr; ring).
  rewrite sqrt_mult_alt by apply Rle_0_sqr.
  rewrite sqrt_Rsqr_abs. reflexivity.
Qed.

Lemma swirl_is_rigid_rotation_witness :
  Precision.get_fluid_velocity_field Precision.config on_the_wall
  = Vec3 (- (omega_fluid Precision.config * 0))
         (omega_fluid Precision.config * 0.05)
         (LIFT_SPEED Precision.config).
Proof.
  assert (Hfar : 1e-6 <= sqrt (vx on_the_wall ^ 2 + vy on_the_wall ^ 2)).
  { unfold on_the_wall. cbn [vx vy].
    replace (0.05 ^ 2 + 0 ^ 2) with (Rsqr 0.05) by (unfold Rsqr; ring).
    rewrite sqrt_Rsqr by lra. lra. }
  exact (proj1 (swirl_is_rigid_rotation Precision.config on_the_wall Hfar)).
Defined.

(** ** The magnetic trap *)

(** X3. The magnetic target always lies on the circle of radius [R_TANK]
    around the tank axis, at the particle's own height; and at [t = 0] it
    is the position at which [__init__] puts the particle. *)
Theorem magnetic_target_on_circle (c : Config) (self : State) (t : R) :
  let target := Precision.get_magnetic_target c self t in
  vx target ^ 2 + vy target ^ 2 = R_TANK c ^ 2 /\
  vz target = vz (pos self) /\
  Precision.get_magnetic_target c (init c) 0 = pos (init c).
Proof.
  unfold Precision.get_magnetic_target. cbv zeta. cbn [vx vy vz init pos].
  split; [| split].
  - set (angle := RPM_MAGNET c / 60.0 * 2 * PI * t).
    assert (Hunit := sin2_cos2 angle). unfold Rsqr in Hunit.
    replace ((R_TANK c * cos angle) ^ 2 + (R_TANK c * sin angle) ^ 2)
      with (R_TANK c ^ 2 * (sin angle * sin angle + cos angle * cos angle))
      by ring.
    rewrite Hunit. ring.
  - reflexivity.
  - rewrite Rmult_0_r, cos_0, sin_0. f_equal; ring.
Qed.

(** X4. The magnetic target is periodic: after any whole number of magnet
    turns, each of [60 / RPM_MAGNET] seconds, it is where it was (for a
    magnet that turns at all). *)
Theorem magnetic_target_periodic
  (c : Config) (self : State) (t : R) (k : nat) :
  RPM_MAGNET c <> 0 ->
  Precision.get_magnetic_target c self (t + INR k * magnet_period c)
  = Precision.get_magnetic_target c self t.
Proof.
  intros Hrpm. unfold Precision.get_magnetic_target, magnet_period. cbv zeta.
  replace 60.0 with 60 by lra.
  replace (RPM_MAGNET c / 60 * 2 * PI * (t + INR k * (60 / RPM_MAGNET c)))
    with (RPM_MAGNET c / 60 * 2 * PI * t + 2 * INR k * PI)
    by (field; exact Hrpm).
  rewrite cos_period, sin_period. reflexivity.
Qed.

Lemma magnetic_target_periodic_witness :
  Precision.get_magnetic_target Precision.config (init Precision.config)
    (7 + INR 3 * magnet_period Precision.config)
  = Precision.get_magnetic_target Precision.config (init Precision.config) 7.
Proof.
  apply (magnetic_target_periodic Precision.config (init Precision.config)
           7 3).
  cbn [Precision.config RPM_MAGNET]. lra.
Defined.

(** ** The break counter and the length record *)

Lemma reachable_length_above_seed (c : Config) (s : State) :
  0 <= GROWTH_RATE c * DT c -> reachable c s -> SEED_LENGTH <= cnt_length s.
Proof.
  intros Hgrow Hreach. induction Hreach as [| g self t _ IH].
  - cbn [init cnt_length]. apply Rle_refl.
  - step_unfold. unfold SEED_LENGTH in *.
    destruct (gtb _ (ADHESION_LIMIT c) && gtb t 5.0).
    + lra.
    + unfold grown_length. lra.
Qed.

Lemma break_counter_step (c : Config) (g : Generator) (self : State) (t : R) :
  (break_counter self <= break_counter (next_state c g self t)
   <= break_counter self + 1)%Z.
Proof.
  step_unfold. destruct (gtb _ (ADHESION_LIMIT c) && gtb t 5.0); lia.
Qed.

(** X5. A step never lowers the break counter and raises it by at most one;
    in every reachable state the counter is non-negative. *)
Theorem break_counter_monotone (c : Config) :
  (forall (g : Generator) (self : State) (t : R),
     (break_counter self <= break_counter (next_state c g self t)
      <= break_counter self + 1)%Z) /\
  (forall s : State, reachable c s -> (0 <= break_counter s)%Z).
Proof.
  split.
  - apply break_counter_step.
  - intros s Hreach. induction Hreach as [| g self t _ IH].
    + cbn [init break_counter]. lia.
    + assert (Hstep := break_counter_step c g self t). lia.
Qed.

Lemma record_after_step (c : Config) (g : Generator) (self : State) (t : R) :
  max_length_record (next_state c g self t)
  = Rmax (max_length_record self) (grown_length c self).
Proof.
  step_unfold.
  destruct (gtb (grown_length c self) (max_length_record self)) eqn:Hgt.
  - apply gtb_true_iff in Hgt. rewrite Rmax_right; [reflexivity | lra].
  - apply gtb_false_iff in Hgt. rewrite Rmax_left; [reflexivity | lra].
Qed.

(** X6. [__init__] starts the length record at 0, below the seed length, so
    the record does not bound the length at first.  After any step from a
    reachable state it does (for a non-negative growth per step): the length
    is at most the record; and on a step without a break from a state whose
    length is at its record, the new record is the new length. *)
Theorem record_dominates_length (c : Config) :
  0 <= GROWTH_RATE c * DT c ->
  max_length_record (init c) < cnt_length (init c) /\
  forall (g : Generator) (self : State) (t : R),
    reachable c self ->
    cnt_length (next_state c g self t)
    <= max_length_record (next_state c g self t) /\
    (res_broken (result c g self t) = false ->
     max_length_record self <= cnt_length self ->
     max_length_record (next_state c g self t)
     = cnt_length (next_state c g self t)).
Proof.
  intros Hgrow. split.
  - cbn [init max_length_record cnt_length]. unfold SEED_LENGTH. lra.
  - intros g self t Hreach.
    assert (Hseed := reachable_length_above_seed c self Hgrow Hreach).
    rewrite record_after_step.
    assert (Hmax := Rmax_r (max_length_record self) (grown_length c self)).
    split.
    + step_unfold. unfold SEED_LENGTH, grown_length in *.
      destruct (gtb _ (ADHESION_LIMIT c) && gtb t 5.0); lra.
    + step_unfold. intros Hb Hrecord. rewrite Hb.
      apply Rmax_right. unfold grown_length. lra.
Qed.

Lemma record_dominates_length_witness :
  cnt_length after_first_step <= max_length_record after_first_step.
Proof.
  assert (Hgrow : 0 <= GROWTH_RATE Precision.config * DT Precision.config)
    by (cbn [Precision.config GROWTH_RATE DT]; lra).
  exact (proj1 (proj2 (record_dominates_length Precision.config Hgrow)
                  (constant_generator 0) (init Precision.config) 0
                  (reach_init Precision.config))).
Defined.

(** ** Tension and breaks *)

Lemma norm_nonneg (v : vec3) : 0 <= norm v.
Proof. unfold norm. apply sqrt_pos. Qed.

Lemma short_step_no_break
  (c : Config) (g : Generator) (self : State) (t : R) :
  0 <= ADHESION_LIMIT c -> grown_length c self <= 10 * R_CNT c ->
  res_tension (result c g self t) = 0 /\
  res_broken (result c g self t) = false.
Proof.
  intros Hadh Hshort.
  assert (Hzero : res_tension (result c g self t) = 0).
  { step_unfold. unfold f_tension.
    rewrite (gamma_cnt_short c _ Hshort). ring. }
  split; [exact Hzero |].
  revert Hzero. step_unfold. intros Hzero. rewrite Hzero.
  apply andb_false_iff. left. apply gtb_false_iff. exact Hadh.
Qed.

(** X7. The returned tension is never negative (for a positive viscosity
    and filament radius). *)
Theorem tension_never_negative
  (c : Config) (g : Generator) (self : State) (t : R) :
  0 < VISCOSITY c -> 0 < R_CNT c -> 0 <= res_tension (result c g self t).
Proof.
  intros Hvisc Hr. step_unfold. unfold f_tension.
  apply Rmult_le_pos; [apply norm_nonneg | apply gamma_cnt_nonneg; assumption].
Qed.

Lemma tension_never_negative_witness :
  0 <= res_tension
         (result Precision.config (constant_generator 0) metre_long 6).
Proof.
  apply (tension_never_negative Precision.config (constant_generator 0)
           metre_long 6);
    cbn [Precision.config VISCOSITY R_CNT]; lra.
Defined.

(** X8. With a non-negative adhesion limit, a filament whose grown length is
    at most [10 * R_CNT] never breaks, at any elapsed time: the step leaves
    the break counter alone and keeps the grown length. *)
Theorem short_filament_never_breaks
  (c : Config) (g : Generator) (self : State) (t : R) :
  0 <= ADHESION_LIMIT c -> grown_length c self <= 10 * R_CNT c ->
  res_broken (result c g self t) = false /\
  break_counter (next_state c g self t) = break_counter self /\
  cnt_length (next_state c g self t) = grown_length c self.
Proof.
  intros Hadh Hshort.
  destruct (short_step_no_break c g self t Hadh Hshort) as [_ Hb].
  split; [exact Hb |].
  revert Hb. step_unfold. intros Hb. rewrite Hb. split; reflexivity.
Qed.

Lemma short_filament_never_breaks_witness :
  res_broken
    (result Precision.config (constant_generator 0)
            (init Precision.config) 100) = false.
Proof.
  apply (short_filament_never_breaks Precision.config (constant_generator 0)
           (init Precision.config) 100).
  - cbn [Precision.config ADHESION_LIMIT]. lra.
  - unfold grown_length, SEED_LENGTH.
    cbn [init cnt_length Precision.config GROWTH_RATE DT R_CNT].
    unfold SEED_LENGTH. lra.
Defined.

(** ** The controller on target *)

Lemma pid_on_target (c : Config) (self : State) (t noise : R) :
  0 <= power_input self <= 150 ->
  pid_err_sum self = 0 -> pid_last_err self = 0 ->
  current_z_vel_real self + noise = current_target_vel c t ->
  z_error c self t noise = 0 /\
  next_pid_err_sum c self t noise = 0 /\
  next_power_input c self t noise = power_input self.
Proof.
  intros Hpower Hsum Hlast Hmeasured.
  assert (Herr : z_error c self t noise = 0) by (unfold z_error; lra).
  assert (Hint : next_pid_err_sum c self t noise = 0).
  { unfold next_pid_err_sum. rewrite Herr, Hsum.
    rewrite clip_inside; lra. }
  split; [exact Herr | split; [exact Hint |]].
  unfold next_power_input. cbv zeta. rewrite Hint, Herr, Hlast.
  rewrite clip_inside; [| unfold Rdiv; lra].
  unfold Rdiv. lra.
Qed.

(** X9. The controller is at rest on target: from a state with a power
    within [0, 150], an empty integral and no previous error, a step whose
    measured velocity (real velocity plus noise) equals the ramped target
    leaves the power unchanged and keeps integral and stored error at 0. *)
Theorem controller_rests_on_target
  (c : Config) (g : Generator) (self : State) (t : R) :
  0 <= power_input self <= 150 ->
  pid_err_sum self = 0 -> pid_last_err self = 0 ->
  current_z_vel_real self + drawn_noise g = current_target_vel c t ->
  power_input (next_state c g self t) = power_input self /\
  res_power_input (result c g self t) = power_input self /\
  pid_err_sum (next_state c g self t) = 0 /\
  pid_last_err (next_state c g self t) = 0.
Proof.
  intros Hpower Hsum Hlast Hmeasured.
  destruct (pid_on_target c self t (drawn_noise g) Hpower Hsum Hlast Hmeasured)
    as [Herr [Hint Hkeep]].
  step_unfold. auto.
Qed.

Lemma metre_long_on_target (c : Config) :
  LIFT_SPEED c = 0.0004 ->
  current_z_vel_real metre_long + drawn_noise (constant_generator 0)
  = current_target_vel c 6.
Proof.
  intros Hlift. unfold current_target_vel, drawn_noise, normal.
  cbn [fst constant_generator tape cursor metre_long current_z_vel_real].
  rewrite Hlift. destruct (Rlt_dec 6 20.0) as [_ | Habs]; lra.
Qed.

Lemma controller_rests_on_target_witness :
  power_input (next_state Precision.config (constant_generator 0)
                          metre_long 6) = 0.
Proof.
  assert (Hpower : 0 <= power_input metre_long <= 150)
    by (cbn [metre_long power_input]; lra).
  exact (proj1 (controller_rests_on_target Precision.config
                  (constant_generator 0) metre_long 6 Hpower
                  eq_refl eq_refl
                  (metre_long_on_target Precision.config eq_refl))).
Defined.

(** ** The thermal balance *)

(** X10. The stored energy relaxes toward half the power without
    overshoot: for [0 < DT <= 0.5] and a non-negative stored energy, the new
    energy lies between the old energy and the equilibrium
    [power_input / 2], on whichever side the old energy was. *)
Theorem thermal_energy_relaxes
  (c : Config) (g : Generator) (self : State) (t : R) :
  0 < DT c <= 1 / 2 -> 0 <= thermal_energy self ->
  let s' := next_state c g self t in
  (thermal_energy self <= power_input s' / 2 ->
   thermal_energy self <= thermal_energy s' <= power_input s' / 2) /\
  (power_input s' / 2 <= thermal_energy self ->
   power_input s' / 2 <= thermal_energy s' <= thermal_energy self).
Proof.
  intros [Hdt0 Hdt1] HE. step_unfold.
  assert (HP := next_power_input_bounds c self t (drawn_noise g)).
  set (P := next_power_input c self t (drawn_noise g)) in *.
  set (E := thermal_energy self) in *.
  unfold next_thermal_energy, energy_update. fold P. fold E.
  assert (Hshape : E + (P - E * 2.0) * DT c
                   = E * (1 - 2 * DT c) + P * DT c) by lra.
  assert (Hkeep : 0 <= E * (1 - 2 * DT c)) by (apply Rmult_le_pos; lra).
  assert (Hheat : 0 <= P * DT c) by (apply Rmult_le_pos; lra).
  rewrite Rmax_right by lra.
  split; intros Hside.
  - assert (Hgap : 0 <= (P / 2 - E) * (1 - 2 * DT c))
      by (apply Rmult_le_pos; lra).
    assert (Hgain : 0 <= (P / 2 - E) * DT c) by (apply Rmult_le_pos; lra).
    lra.
  - assert (Hgap : 0 <= (E - P / 2) * (1 - 2 * DT c))
      by (apply Rmult_le_pos; lra).
    assert (Hloss : 0 <= (E - P / 2) * DT c) by (apply Rmult_le_pos; lra).
    lra.
Qed.

Lemma thermal_energy_relaxes_witness :
  thermal_energy (init Precision.config)
  <= thermal_energy after_first_step <= power_input after_first_step / 2.
Proof.
  assert (Hdt : 0 < DT Precision.config <= 1 / 2)
    by (cbn [Precision.config DT]; lra).
  assert (HE : 0 <= thermal_energy (init Precision.config))
    by (cbn [init thermal_energy]; lra).
  apply (proj1 (thermal_energy_relaxes Precision.config (constant_generator 0)
                  (init Precision.config) 0 Hdt HE)).
  assert (HP := next_power_input_bounds Precision.config
                  (init Precision.config) 0
                  (drawn_noise (constant_generator 0))).
  change (power_input
            (next_state Precision.config (constant_generator 0)
                        (init Precision.config) 0))
    with (next_power_input Precision.config (init Precision.config) 0
            (drawn_noise (constant_generator 0))).
  cbn [init thermal_energy]. lra.
Defined.

Lemma fpow_third_cubed (x : R) : 0 <= x -> fpow x (1 / 3) ^ 3 = x.
Proof.
  intros Hx. unfold fpow. destruct (Rle_dec x 0) as [Hzero | Hpos].
  - replace x with 0 by lra. ring.
  - assert (Hx0 : 0 < x) by lra.
    assert (Hroot : 0 < Rpower x (1 / 3)) by (unfold Rpower; apply exp_pos).
    rewrite <- (Rpower_pow 3 _ Hroot), Rpower_mult.
    replace (1 / 3 * INR 3) with 1 by (simpl; field).
    apply Rpower_1. exact Hx0.
Qed.

(** X11. In every reachable state the cube of the vapor radius is the
    thermal energy times [1e-13]: the vapor volume [4/3 PI r_vapor^3] that
    [step] adds to the buoyant volume is proportional to the stored
    energy. *)
Theorem vapor_volume_tracks_energy (c : Config) (s : State) :
  reachable c s ->
  r_vapor s ^ 3 = thermal_energy s * 1e-13 /\
  (4 / 3) * PI * r_vapor s ^ 3 = (4 / 3) * PI * 1e-13 * thermal_energy s.
Proof.
  intros Hreach.
  assert (Hcube : r_vapor s ^ 3 = thermal_energy s * 1e-13).
  { destruct Hreach as [| g self t _].
    - cbn [init r_vapor thermal_energy]. ring.
    - step_unfold. unfold next_r_vapor, vapor_radius.
      rewrite fpow_third_cubed by apply vapor_base_nonneg. lra. }
  split; [exact Hcube | rewrite Hcube; ring].
Qed.

Lemma vapor_volume_tracks_energy_witness :
  r_vapor after_first_step ^ 3 = thermal_energy after_first_step * 1e-13.
Proof.
  apply (vapor_volume_tracks_energy Precision.config after_first_step).
  unfold after_first_step. apply reach_step. apply reach_init.
Defined.

(** ** The unheated particle *)

Lemma vapor_radius_unheated : vapor_radius 0 = 0.
Proof.
  unfold vapor_radius, fpow.
  destruct (Rle_dec (0 * 1.0e-13) 0) as [_ | Habs]; [reflexivity | lra].
Qed.

Lemma unheated_net_force (c : Config) (len : R) :
  0 < G c -> 0 < R_CORE c -> RHO_FLUID c < RHO_PARTICLE c -> 0 <= len ->
  f_buoy c 0 < f_grav c len.
Proof.
  intros Hg Hcore Hrho Hlen. unfold f_buoy, f_grav, total_mass.
  assert (Hpi := PI_RGT_0).
  set (vol_core := 4 / 3 * PI * R_CORE c ^ 3).
  assert (Hvol : 0 < vol_core).
  { unfold vol_core. apply Rmult_lt_0_compat.
    - apply Rmult_lt_0_compat; lra.
    - apply pow_lt. exact Hcore. }
  assert (Hcnt : 0 <= PI * R_CNT c ^ 2 * len * 2200.0).
  { apply Rmult_le_pos; [| lra]. apply Rmult_le_pos; [| exact Hlen].
    apply Rmult_le_pos; [lra | apply pow2_ge_0]. }
  replace (4 / 3 * PI * 0 ^ 3) with 0 by ring.
  assert (Hcore_weight :
            (vol_core + 0) * RHO_FLUID c < vol_core * RHO_PARTICLE c).
  { rewrite Rplus_0_r. apply Rmult_lt_compat_l; assumption. }
  apply Rmult_lt_compat_r; [exact Hg | lra].
Qed.

Lemma unheated_drift_down (c : Config) (len : R) :
  0 < VISCOSITY c -> 0 < R_CORE c -> 0 < R_CNT c -> 0 < G c ->
  RHO_FLUID c < RHO_PARTICLE c -> 0 <= len ->
  (f_buoy c 0 - f_grav c len) / gamma_total c 0 len < 0.
Proof.
  intros Hvisc Hcore Hr Hg Hrho Hlen.
  assert (Hforce := unheated_net_force c len Hg Hcore Hrho Hlen).
  assert (Hdrag := gamma_total_positive c 0 len Hvisc Hcore Hr (Rle_refl 0)).
  assert (Hspeed : 0 < (f_grav c len - f_buoy c 0) * / gamma_total c 0 len).
  { apply Rmult_lt_0_compat; [lra | apply Rinv_0_lt_compat; exact Hdrag]. }
  unfold Rdiv.
  replace ((f_buoy c 0 - f_grav c len) * / gamma_total c 0 len)
    with (- ((f_grav c len - f_buoy c 0) * / gamma_total c 0 len)) by ring.
  lra.
Qed.

(** X12. Without stored heat the particle sinks through the fluid: for
    positive viscosity, radii and gravity, a particle denser than the fluid
    and a non-negative filament length, a step that ends with
    [thermal_energy = 0] ends with a real vertical velocity strictly below
    [LIFT_SPEED]. *)
Theorem unheated_particle_sinks
  (c : Config) (g : Generator) (self : State) (t : R) :
  0 < VISCOSITY c -> 0 < R_CORE c -> 0 < R_CNT c -> 0 < G c ->
  RHO_FLUID c < RHO_PARTICLE c -> 0 <= grown_length c self ->
  thermal_energy (next_state c g self t) = 0 ->
  current_z_vel_real (next_state c g self t) < LIFT_SPEED c.
Proof.
  intros Hvisc Hcore Hr Hg Hrho Hlen Hcold.
  rewrite next_vertical_velocity.
  revert Hcold. step_unfold. intros Hcold.
  unfold next_r_vapor. rewrite Hcold, vapor_radius_unheated.
  assert (Hdown := unheated_drift_down c (grown_length c self)
                     Hvisc Hcore Hr Hg Hrho Hlen).
  lra.
Qed.

Lemma metre_long_stays_cold (c : Config) :
  LIFT_SPEED c = 0.0004 ->
  next_thermal_energy c metre_long 6 (drawn_noise (constant_generator 0)) = 0.
Proof.
  intros Hlift.
  assert (Hpower : 0 <= power_input metre_long <= 150)
    by (cbn [metre_long power_input]; lra).
  destruct (pid_on_target c metre_long 6 (drawn_noise (constant_generator 0))
              Hpower eq_refl eq_refl (metre_long_on_target c Hlift))
    as [_ [_ Hkeep]].
  unfold next_thermal_energy, energy_update. rewrite Hkeep.
  cbn [metre_long power_input thermal_energy].
  replace (0 + (0 - 0 * 2.0) * DT c) with 0 by lra.
  apply Rmax_left. apply Rle_refl.
Qed.

Lemma unheated_particle_sinks_witness :
  current_z_vel_real
    (next_state Precision.config (constant_generator 0) metre_long 6)
  < LIFT_SPEED Precision.config.
Proof.
  apply (unheated_particle_sinks Precision.config (constant_generator 0)
           metre_long 6).
  - cbn [Precision.config VISCOSITY]. lra.
  - cbn [Precision.config R_CORE]. lra.
  - cbn [Precision.config R_CNT]. lra.
  - cbn [Precision.config G]. lra.
  - cbn [Precision.config RHO_FLUID RHO_PARTICLE]. lra.
  - unfold grown_length.
    cbn [metre_long cnt_length Precision.config GROWTH_RATE DT]. lra.
  - exact (metre_long_stays_cold Precision.config eq_refl).
Defined.

(** ** The filament drag grows with the length *)

Lemma ln_below_line (q : R) : 0 < q -> ln q <= q - 1.
Proof.
  intros Hq.
  assert (Hexp := exp_ineq1_le (q - 1)).
  replace (1 + (q - 1)) with q in Hexp by ring.
  destruct Hexp as [Hlt | Heq].
  - left. rewrite <- (ln_exp (q - 1)). apply ln_increasing; assumption.
  - right. rewrite Heq at 1. apply ln_exp.
Qed.

Lemma denom_above_one (c : Config) (len : R) :
  0 < R_CNT c -> 10 * R_CNT c < len -> 1 < denom c len.
Proof.
  intros Hr Hlong. unfold denom.
  assert (Heps : 20 < (2 * len) / R_CNT c).
  { apply Rmult_lt_reg_r with (R_CNT c); [exact Hr |].
    replace ((2 * len) / R_CNT c * R_CNT c) with (2 * len)
      by (field; lra).
    lra. }
  assert (Hexp : exp (3 / 2) < 20).
  { apply Rlt_le_trans with (exp (1 + 1)).
    - apply exp_increasing. lra.
    - rewrite exp_plus. assert (H3 := exp_le_3). assert (H0 := exp_pos 1).
      assert (Hsq : exp 1 * exp 1 <= 3 * 3)
        by (apply Rmult_le_compat; lra).
      lra. }
  assert (Hln : 3 / 2 < ln ((2 * len) / R_CNT c)).
  { rewrite <- (ln_exp (3 / 2)).
    apply ln_increasing; [apply exp_pos | lra]. }
  lra.
Qed.





(** ** After a break *)

Lemma gamma_cnt_positive (c : Config) (len : R) :
  0 < VISCOSITY c -> 0 < R_CNT c -> 10 * R_CNT c < len ->
  0 < gamma_cnt c len.
Proof.
  intros Hvisc Hr Hlong. rewrite (gamma_cnt_long c len Hlong).
  assert (Hden := denom_positive c len Hr Hlong).
  assert (Hpi := PI_RGT_0).
  apply Rdiv_lt_0_compat; [| exact Hden].
  apply Rmult_lt_0_compat; [| lra].
  apply Rmult_lt_0_compat; lra.
Qed.

Lemma norm_positive (v : vec3) : vz v <> 0 -> 0 < norm v.
Proof.
  intros Hz. unfold norm. apply sqrt_lt_R0.
  assert (Hx := pow2_ge_0 (vx v)). assert (Hy := pow2_ge_0 (vy v)).
  assert (Hzz : 0 < vz v ^ 2).
  { replace (vz v ^ 2) with (Rsqr (vz v)) by (unfold Rsqr; ring).
    apply Rsqr_pos_lt. exact Hz. }
  lra.
Qed.

Lemma metre_long_breaks :
  res_broken (result no_adhesion (constant_generator 0) metre_long 6) = true.
Proof.
  assert (Hvisc : 0 < VISCOSITY no_adhesion)
    by (cbn [no_adhesion with_profile VISCOSITY]; lra).
  assert (Hcore : 0 < R_CORE no_adhesion)
    by (cbn [no_adhesion with_profile Precision.config R_CORE]; lra).
  assert (Hr : 0 < R_CNT no_adhesion)
    by (cbn [no_adhesion with_profile Precision.config R_CNT]; lra).
  assert (Hg : 0 < G no_adhesion)
    by (cbn [no_adhesion with_profile Precision.config G]; lra).
  assert (Hrho : RHO_FLUID no_adhesion < RHO_PARTICLE no_adhesion)
    by (cbn [no_adhesion with_profile Precision.config
             RHO_FLUID RHO_PARTICLE]; lra).
  assert (Hlen : 10 * R_CNT no_adhesion < grown_length no_adhesion metre_long).
  { unfold grown_length.
    cbn [no_adhesion with_profile Precision.config R_CNT GROWTH_RATE DT
         metre_long cnt_length]. lra. }
  step_unfold. apply andb_true_iff. split; apply gtb_true_iff; [| lra].
  cbn [no_adhesion with_profile ADHESION_LIMIT]. fold no_adhesion.
  unfold next_r_vapor.
  rewrite (metre_long_stays_cold no_adhesion eq_refl), vapor_radius_unheated.
  unfold f_tension. apply Rmult_lt_0_compat.
  - apply norm_positive. rewrite drift_z.
    assert (Hdown := unheated_drift_down no_adhesion
                       (grown_length no_adhesion metre_long)
                       Hvisc Hcore Hr Hg Hrho ltac:(lra)).
    lra.
  - apply gamma_cnt_positive; assumption.
Qed.

(** X14. A break is never followed at once by another: with a non-negative
    adhesion limit and a seed that after one step of growth is still at most
    [10 * R_CNT] long, the step that follows a breaking step does not break,
    whatever its elapsed time and noise. *)
Theorem no_consecutive_breaks
  (c : Config) (g1 g2 : Generator) (self : State) (t1 t2 : R) :
  0 <= ADHESION_LIMIT c ->
  1e-9 + GROWTH_RATE c * DT c <= 10 * R_CNT c ->
  res_broken (result c g1 self t1) = true ->
  res_broken (result c g2 (next_state c g1 self t1) t2) = false.
Proof.
  intros Hadh Hseed Hbroke.
  apply short_step_no_break; [exact Hadh |].
  unfold grown_length. revert Hbroke. step_unfold.
  intros Hbroke. rewrite Hbroke. exact Hseed.
Qed.

Lemma no_consecutive_breaks_witness :
  res_broken
    (result no_adhesion (constant_generator 1)
            (next_state no_adhesion (constant_generator 0) metre_long 6)
            6.0005) = false.
Proof.
  apply (no_consecutive_breaks no_adhesion (constant_generator 0)
           (constant_generator 1) metre_long 6 6.0005).
  - cbn [no_adhesion with_profile ADHESION_LIMIT]. lra.
  - cbn [no_adhesion with_profile Precision.config GROWTH_RATE DT R_CNT]. lra.
  - exact metre_long_breaks.
Defined.

(** ** The driver loop *)

Lemma iteration_fields
  (c : Config) (steps log_interval : nat) (d : Driver) (i : nat)
  (d1 : Driver) :
  iteration c steps log_interval d i = Returned d1 ->
  sim d1 = next_state c (rng d) (sim d) (INR i * DT c) /\
  history_pos d1
  = (if (i mod 1000 =? 0)%nat
     then history_pos d ++ [res_pos (result c (rng d) (sim d) (INR i * DT c))]
     else history_pos d) /\
  history_meta d1
  = (if (i mod 1000 =? 0)%nat
     then history_meta d ++
            [[INR i * DT c;
              res_cnt_length (result c (rng d) (sim d) (INR i * DT c));
              res_power_input (result c (rng d) (sim d) (INR i * DT c));
              res_target_vel (result c (rng d) (sim d) (INR i * DT c));
              current_z_vel_real
                (next_state c (rng d) (sim d) (INR i * DT c));
              res_r_vapor (result c (rng d) (sim d) (INR i * DT c));
              res_tension (result c (rng d) (sim d) (INR i * DT c))]]
     else history_meta d) /\
  exists rows : list Row,
    console d1 = console d ++ rows /\
    snap_rows rows
    = (if res_broken (result c (rng d) (sim d) (INR i * DT c))
       then 1 else 0)%nat /\
    Forall (fun row => row_step row = i) rows.
Proof.
  unfold iteration. cbv zeta.
  destruct (res_broken (result c (rng d) (sim d) (INR i * DT c))).
  - intros Heq. injection Heq as <-. cbn [sim history_pos history_meta console].
    repeat split. exists [MkRow i true].
    repeat split. repeat constructor.
  - destruct log_interval as [| k]; [discriminate |].
    destruct ((i mod S k =? 0) || (i =? steps - 1))%nat;
      intros Heq; injection Heq as <-;
      cbn [sim history_pos history_meta console]; repeat split.
    + exists [MkRow i false]. repeat split. repeat constructor.
    + exists []. rewrite app_nil_r. repeat split. constructor.
Qed.

Lemma iteration_total
  (c : Config) (steps log_interval : nat) (d : Driver) (i : nat) :
  log_interval <> 0%nat ->
  exists d1 : Driver, iteration c steps log_interval d i = Returned d1.
Proof.
  intros Hlog. unfold iteration. cbv zeta.
  destruct (res_broken (result c (rng d) (sim d) (INR i * DT c)));
    [eexists; reflexivity |].
  destruct log_interval as [| k]; [contradiction |].
  destruct ((i mod S k =? 0) || (i =? steps - 1))%nat; eexists; reflexivity.
Qed.

Lemma for_each_invariant
  (body : Driver -> nat -> outcome Driver) (Inv : nat -> Driver -> Prop)
  (bound : nat) :
  (forall (i : nat) (d : Driver),
     (i < bound)%nat -> Inv i d ->
     exists d1 : Driver, body d i = Returned d1 /\ Inv (S i) d1) ->
  forall (n first : nat) (d : Driver),
    (first + n <= bound)%nat -> Inv first d ->
    exists d1 : Driver,
      for_each body (seq first n) d = Returned d1 /\ Inv (first + n)%nat d1.
Proof.
  intros Hbody n. induction n as [| n IH]; intros first d Hbound Hinv.
  - exists d. rewrite Nat.add_0_r. split; [reflexivity | exact Hinv].
  - cbn [seq for_each].
    destruct (Hbody first d ltac:(lia) Hinv) as [d1 [Hd1 Hinv1]].
    rewrite Hd1.
    destruct (IH (S first) d1 ltac:(lia) Hinv1) as [d2 [Hd2 Hinv2]].
    exists d2. split; [exact Hd2 |].
    replace (first + S n)%nat with (S first + n)%nat by lia. exact Hinv2.
Qed.

Lemma log_interval_positive (parts steps : nat) :
  (0 < parts <= steps)%nat -> (steps / parts)%nat <> 0%nat.
Proof.
  intros [Hparts Hsteps] Hzero.
  apply Nat.div_small_iff in Hzero; lia.
Qed.

Lemma main_loop_invariant
  (parts : nat) (c : Config) (g : Generator) (steps : nat)
  (Inv : nat -> Driver -> Prop) :
  (0 < parts <= steps)%nat ->
  Inv 0%nat (start c g) ->
  (forall (i : nat) (d d1 : Driver),
     (i < steps)%nat -> Inv i d ->
     iteration c steps (steps / parts) d i = Returned d1 -> Inv (S i) d1) ->
  exists d : Driver, main_loop parts c g steps = Returned d /\ Inv steps d.
Proof.
  intros Hparts Hstart Hkeep. unfold main_loop.
  apply (for_each_invariant _ Inv steps); [| lia | exact Hstart].
  intros i d Hi Hinv.
  destruct (iteration_total c steps (steps / parts) d i
              (log_interval_positive parts steps Hparts)) as [d1 Hd1].
  exists d1. split; [exact Hd1 | exact (Hkeep i d d1 Hi Hinv Hd1)].
Qed.

Lemma first_step_keeps_filament
  (c : Config) (g : Generator) (self : State) :
  res_broken (result c g self (INR 0 * DT c)) = false.
Proof.
  apply no_break_in_window. cbn [INR]. lra.
Qed.

(** X15. The loop of the main block fails exactly on short runs: for a
    positive divisor [parts] (25 in the precision file, 10 in the
    mass-production file), the loop raises, on [i % log_interval] in its
    first pass, if and only if [0 < steps < parts]; for no step at all and
    for [steps >= parts] it runs to its end. *)
Theorem main_loop_raises_iff
  (parts : nat) (c : Config) (g : Generator) (steps : nat) :
  (0 < parts)%nat ->
  (main_loop parts c g steps = Raised <-> (0 < steps < parts)%nat) /\
  ((0 < steps < parts)%nat ->
   iteration c steps (steps / parts) (start c g) 0 = Raised).
Proof.
  intros Hparts.
  assert (Hfirst : (0 < steps < parts)%nat ->
            iteration c steps (steps / parts) (start c g) 0 = Raised).
  { intros Hshort. rewrite (Nat.div_small steps parts) by lia.
    unfold iteration. cbv zeta.
    rewrite first_step_keeps_filament. reflexivity. }
  split; [split |]; [| | exact Hfirst].
  - intros Hraised.
    destruct (Nat.eq_dec steps 0) as [-> | Hpos]; [discriminate |].
    destruct (Nat.lt_ge_cases steps parts) as [Hshort | Hlong]; [lia |].
    destruct (main_loop_invariant parts c g steps (fun _ _ => True)
                ltac:(lia) I (fun _ _ _ _ _ _ => I)) as [d [Hd _]].
    rewrite Hd in Hraised. discriminate.
  - intros Hshort. unfold main_loop.
    destruct steps as [| n]; [lia |].
    cbn [seq for_each]. rewrite (Hfirst Hshort). reflexivity.
Qed.

Lemma main_loop_raises_iff_witness :
  main_loop 25 Precision.config (constant_generator 0) 24 = Raised.
Proof.
  apply (proj1 (main_loop_raises_iff 25 Precision.config
                  (constant_generator 0) 24 ltac:(lia))).
  lia.
Defined.

Ltac split_by_1000 n :=
  let Hdm := fresh "Hdm" in
  let Hlt := fresh "Hlt" in
  assert (Hdm := Nat.div_mod_eq n 1000);
  assert (Hlt := Nat.mod_upper_bound n 1000 ltac:(discriminate)).

Lemma samples_after_sampled_step (i : nat) :
  (i mod 1000 = 0 ->
   (S i + 999) / 1000 = (i + 999) / 1000 + 1 /\ 1000 * ((i + 999) / 1000) = i)%nat.
Proof.
  intros Hmod. split_by_1000 i. split_by_1000 (i + 999)%nat.
  split_by_1000 (S i + 999)%nat. lia.
Qed.

Lemma samples_after_skipped_step (i : nat) :
  (i mod 1000 <> 0 -> (S i + 999) / 1000 = (i + 999) / 1000)%nat.
Proof.
  intros Hmod. split_by_1000 i. split_by_1000 (i + 999)%nat.
  split_by_1000 (S i + 999)%nat. lia.
Qed.

(** X16. A run of [steps >= parts] steps samples every 1000th step: at the
    end of the loop both history lists hold [ceil (steps / 1000)] entries,
    and the [k]-th entry of [history_meta] is a row of seven numbers that
    starts with the elapsed time [1000 * k * DT] of the step it samples. *)
Theorem history_samples_every_1000th
  (parts : nat) (c : Config) (g : Generator) (steps : nat) :
  (0 < parts <= steps)%nat ->
  exists d : Driver,
    main_loop parts c g steps = Returned d /\
    length (history_pos d) = ((steps + 999) / 1000)%nat /\
    length (history_meta d) = ((steps + 999) / 1000)%nat /\
    forall k : nat,
      (k < length (history_meta d))%nat ->
      hd 0 (nth k (history_meta d) []) = INR (1000 * k) * DT c /\
      length (nth k (history_meta d) []) = 7%nat.
Proof.
  intros Hparts.
  apply (main_loop_invariant parts c g steps
           (fun i d =>
              length (history_pos d) = ((i + 999) / 1000)%nat /\
              length (history_meta d) = ((i + 999) / 1000)%nat /\
              forall k : nat,
                (k < length (history_meta d))%nat ->
                hd 0 (nth k (history_meta d) []) = INR (1000 * k) * DT c /\
                length (nth k (history_meta d) []) = 7%nat) Hparts).
  - cbn [start history_pos history_meta length].
    split; [reflexivity | split; [reflexivity |]].
    intros k Hk. inversion Hk.
  - intros i d d1 _ [Hpos [Hmeta Hrows]] Hd1.
    destruct (iteration_fields c steps _ d i d1 Hd1)
      as [_ [Hpos1 [Hmeta1 _]]].
    rewrite Hpos1, Hmeta1.
    destruct (i mod 1000 =? 0)%nat eqn:Hsampled.
    + apply Nat.eqb_eq in Hsampled.
      destruct (samples_after_sampled_step i Hsampled) as [Hcount Hindex].
      rewrite !length_app, Hpos, Hmeta. cbn [length].
      split; [lia | split; [lia |]].
      intros k Hk.
      destruct (Nat.lt_ge_cases k (length (history_meta d))) as [Hold | Hnew].
      * rewrite app_nth1 by exact Hold. apply Hrows. exact Hold.
      * assert (Hlast : k = length (history_meta d)) by lia.
        rewrite Hlast, nth_middle. cbn [hd length].
        rewrite Hmeta, Hindex. split; reflexivity.
    + apply Nat.eqb_neq in Hsampled.
      rewrite (samples_after_skipped_step i Hsampled).
      split; [exact Hpos | split; [exact Hmeta | exact Hrows]].
Qed.

Lemma history_samples_every_1000th_witness :
  exists d : Driver,
    main_loop 25 Precision.config (constant_generator 0) 2500 = Returned d /\
    length (history_pos d) = 3%nat.
Proof.
  destruct (history_samples_every_1000th 25 Precision.config
              (constant_generator 0) 2500 ltac:(lia))
    as [d [Hd [Hpos _]]].
  exists d. split; [exact Hd | exact Hpos].
Defined.

Lemma break_counter_after_step
  (c : Config) (g : Generator) (self : State) (t : R) :
  break_counter (next_state c g self t)
  = if res_broken (result c g self t) then (break_counter self + 1)%Z
    else break_counter self.
Proof. reflexivity. Qed.

Lemma snap_rows_app (rows1 rows2 : list Row) :
  snap_rows (rows1 ++ rows2) = (snap_rows rows1 + snap_rows rows2)%nat.
Proof. unfold snap_rows. rewrite filter_app, length_app. reflexivity. Qed.

(** X17. The console reports every break once: at the end of a run of
    [steps >= parts] steps the number of [!!!SNAP] rows written equals the
    final [break_counter], the number printed as "Total Snaps". *)
Theorem every_break_is_reported
  (parts : nat) (c : Config) (g : Generator) (steps : nat) :
  (0 < parts <= steps)%nat ->
  exists d : Driver,
    main_loop parts c g steps = Returned d /\
    Z.of_nat (snap_rows (console d)) = break_counter (sim d).
Proof.
  intros Hparts.
  apply (main_loop_invariant parts c g steps
           (fun _ d => Z.of_nat (snap_rows (console d))
                       = break_counter (sim d)) Hparts).
  - reflexivity.
  - intros i d d1 _ Hinv Hd1.
    destruct (iteration_fields c steps _ d i d1 Hd1)
      as [Hsim [_ [_ [rows [Hconsole [Hsnaps _]]]]]].
    rewrite Hconsole, Hsim, snap_rows_app, Hsnaps, break_counter_after_step.
    destruct (res_broken (result c (rng d) (sim d) (INR i * DT c))); lia.
Qed.

Lemma every_break_is_reported_witness :
  exists d : Driver,
    main_loop 10 Precision.config (constant_generator 0) 10 = Returned d /\
    Z.of_nat (snap_rows (console d)) = break_counter (sim d).
Proof.
  exact (every_break_is_reported 10 Precision.config (constant_generator 0)
           10 ltac:(lia)).
Defined.

Lemma length_below_record_after_step
  (c : Config) (g : Generator) (self : State) (t : R) :
  0 <= GROWTH_RATE c * DT c -> SEED_LENGTH <= cnt_length self ->
  cnt_length (next_state c g self t)
  <= max_length_record (next_state c g self t).
Proof.
  intros Hgrow Hseed. rewrite record_after_step.
  assert (Hmax := Rmax_r (max_length_record self) (grown_length c self)).
  step_unfold. unfold SEED_LENGTH, grown_length in *.
  destruct (gtb _ (ADHESION_LIMIT c) && gtb t 5.0); lra.
Qed.

Lemma length_after_step_bound
  (c : Config) (g : Generator) (self : State) (t bound : R) :
  0 <= GROWTH_RATE c * DT c -> SEED_LENGTH <= bound ->
  cnt_length self <= bound ->
  cnt_length (next_state c g self t) <= bound + GROWTH_RATE c * DT c.
Proof.
  intros Hgrow Hseed Hlen. step_unfold. unfold SEED_LENGTH, grown_length in *.
  destruct (gtb _ (ADHESION_LIMIT c) && gtb t 5.0); lra.
Qed.

(** X18. What a run reports at its end is bounded by the run: after
    [steps >= parts] steps with a non-negative growth per step, the final
    state is a reachable one, the break counter lies between 0 and
    [steps], and the final length is at most the length record, which is at
    most the seed plus [steps] times the growth per step. *)
Theorem run_totals_are_bounded
  (parts : nat) (c : Config) (g : Generator) (steps : nat) :
  0 <= GROWTH_RATE c * DT c -> (0 < parts <= steps)%nat ->
  exists d : Driver,
    main_loop parts c g steps = Returned d /\
    reachable c (sim d) /\
    (0 <= break_counter (sim d) <= Z.of_nat steps)%Z /\
    cnt_length (sim d) <= max_length_record (sim d) /\
    max_length_record (sim d)
    <= SEED_LENGTH + INR steps * (GROWTH_RATE c * DT c).
Proof.
  intros Hgrow Hparts.
  destruct (main_loop_invariant parts c g steps
              (fun i d =>
                 reachable c (sim d) /\
                 (0 <= break_counter (sim d) <= Z.of_nat i)%Z /\
                 cnt_length (sim d)
                 <= SEED_LENGTH + INR i * (GROWTH_RATE c * DT c) /\
                 max_length_record (sim d)
                 <= SEED_LENGTH + INR i * (GROWTH_RATE c * DT c) /\
                 (i <> 0%nat ->
                  cnt_length (sim d) <= max_length_record (sim d))) Hparts)
    as [d [Hd [Hreach [Hcount [_ [Hrecord Hlen]]]]]].
  - cbn [start sim init break_counter cnt_length max_length_record INR].
    split; [apply reach_init |]. unfold SEED_LENGTH.
    split; [lia | split; [lra | split; [lra |]]].
    intros Habs. contradiction.
  - intros i d d1 _ [Hreach [Hcount [Hlen [Hrecord _]]]] Hd1.
    destruct (iteration_fields c steps _ d i d1 Hd1) as [Hsim _].
    rewrite Hsim, S_INR.
    assert (Hseed := reachable_length_above_seed c (sim d) Hgrow Hreach).
    assert (Htime : 0 <= INR i * (GROWTH_RATE c * DT c))
      by (apply Rmult_le_pos; [apply pos_INR | exact Hgrow]).
    split; [apply reach_step; exact Hreach |].
    split.
    { assert (Hstep := break_counter_step c (rng d) (sim d) (INR i * DT c)).
      lia. }
    split.
    { assert (Hbound :
        SEED_LENGTH <= SEED_LENGTH + INR i * (GROWTH_RATE c * DT c)) by lra.
      assert (Hnext := length_after_step_bound c (rng d) (sim d)
                         (INR i * DT c) _ Hgrow Hbound Hlen).
      lra. }
    split.
    { rewrite record_after_step. apply Rmax_lub; [lra |].
      unfold grown_length. lra. }
    intros _. apply length_below_record_after_step; assumption.
  - exists d.
    split; [exact Hd | split; [exact Hreach | split; [exact Hcount |]]].
    split; [apply Hlen; lia | exact Hrecord].
Qed.

Lemma run_totals_are_bounded_witness :
  exists d : Driver,
    main_loop 25 Precision.config (constant_generator 0) 100 = Returned d /\
    (0 <= break_counter (sim d) <= 100)%Z.
Proof.
  assert (Hgrow : 0 <= GROWTH_RATE Precision.config * DT Precision.config)
    by (cbn [Precision.config GROWTH_RATE DT]; lra).
  destruct (run_totals_are_bounded 25 Precision.config (constant_generator 0)
              100 Hgrow ltac:(lia))
    as [d [Hd [_ [Hcount _]]]].
  exists d. split; [exact Hd | exact Hcount].
Defined.

Lemma window_time (i steps : nat) (dt : R) :
  (i < steps)%nat -> INR (steps - 1) * dt <= 5 -> INR i * dt <= 5.
Proof.
  intros Hi Hlast.
  assert (Hle : INR i <= INR (steps - 1)) by (apply le_INR; lia).
  assert (Hpos := pos_INR i).
  destruct (Rle_or_lt 0 dt) as [Hdt | Hdt].
  - apply Rle_trans with (INR (steps - 1) * dt); [| exact Hlast].
    apply Rmult_le_compat_r; assumption.
  - assert (Hneg : 0 <= INR i * (- dt)) by (apply Rmult_le_pos; lra).
    lra.
Qed.

(** X19. A run that ends within the stabilisation window cannot break:
    if the last step's elapsed time [(steps - 1) * DT] is at most 5 s (and
    [steps >= parts]), the run ends with a break counter of 0, no
    [!!!SNAP] row, and a filament of exactly the seed plus [steps] times the
    growth per step, which for a non-negative growth is also the length
    record. *)
Theorem run_inside_window_never_breaks
  (parts : nat) (c : Config) (g : Generator) (steps : nat) :
  0 <= GROWTH_RATE c * DT c -> INR (steps - 1) * DT c <= 5 ->
  (0 < parts <= steps)%nat ->
  exists d : Driver,
    main_loop parts c g steps = Returned d /\
    break_counter (sim d) = 0%Z /\
    snap_rows (console d) = 0%nat /\
    cnt_length (sim d) = SEED_LENGTH + INR steps * (GROWTH_RATE c * DT c) /\
    max_length_record (sim d) = cnt_length (sim d).
Proof.
  intros Hgrow Hwindow Hparts.
  destruct (main_loop_invariant parts c g steps
              (fun i d =>
                 break_counter (sim d) = 0%Z /\
                 snap_rows (console d) = 0%nat /\
                 cnt_length (sim d)
                 = SEED_LENGTH + INR i * (GROWTH_RATE c * DT c) /\
                 max_length_record (sim d) <= cnt_length (sim d) /\
                 (i <> 0%nat ->
                  max_length_record (sim d) = cnt_length (sim d))) Hparts)
    as [d [Hd [Hcount [Hsnaps [Hlen [_ Hrecord]]]]]].
  - cbn [start sim console init break_counter cnt_length max_length_record
         INR]. unfold SEED_LENGTH.
    split; [reflexivity | split; [reflexivity | split; [lra | split; [lra |]]]].
    intros Habs. contradiction.
  - intros i d d1 Hi [Hcount [Hsnaps [Hlen [Hrecord _]]]] Hd1.
    destruct (iteration_fields c steps _ d i d1 Hd1)
      as [Hsim [_ [_ [rows [Hconsole [Hrows _]]]]]].
    assert (Hquiet :
      res_broken (result c (rng d) (sim d) (INR i * DT c)) = false)
      by (apply no_break_in_window, (window_time i steps); assumption).
    rewrite Hquiet in Hrows.
    rewrite Hsim, Hconsole, snap_rows_app, Hsnaps, Hrows, S_INR,
      break_counter_after_step, Hquiet, record_after_step.
    assert (Hnext : cnt_length (next_state c (rng d) (sim d) (INR i * DT c))
                    = grown_length c (sim d)).
    { revert Hquiet. step_unfold. intros Hquiet. rewrite Hquiet. reflexivity. }
    rewrite Hnext. unfold grown_length.
    rewrite Rmax_right by lra.
    split; [exact Hcount | split; [reflexivity | split; [lra |]]].
    split; [apply Rle_refl | reflexivity].
  - exists d. split; [exact Hd |].
    split; [exact Hcount | split; [exact Hsnaps | split; [exact Hlen |]]].
    apply Hrecord. lia.
Qed.

Lemma run_inside_window_never_breaks_witness :
  exists d : Driver,
    main_loop 25 Precision.config (constant_generator 0) 100 = Returned d /\
    break_counter (sim d) = 0%Z.
Proof.
  assert (Hgrow : 0 <= GROWTH_RATE Precision.config * DT Precision.config)
    by (cbn [Precision.config GROWTH_RATE DT]; lra).
  assert (Hwindow : INR (100 - 1) * DT Precision.config <= 5).
  { rewrite (INR_IZR_INZ (100 - 1)).
    change (Z.of_nat (100 - 1)) with 99%Z.
    cbn [Precision.config DT]. lra. }
  destruct (run_inside_window_never_breaks 25 Precision.config
              (constant_generator 0) 100 Hgrow Hwindow ltac:(lia))
    as [d [Hd [Hcount _]]].
  exists d. split; [exact Hd | exact Hcount].
Defined.

Lemma for_each_app
  (body : Driver -> nat -> outcome Driver) (l1 l2 : list nat) (d : Driver) :
  for_each body (l1 ++ l2) d
  = match for_each body l1 d with
    | Returned d1 => for_each body l2 d1
    | Raised => Raised
    end.
Proof.
  revert d. induction l1 as [| i l1 IH]; intros d; cbn [app for_each].
  - reflexivity.
  - destruct (body d i) as [d1 |]; [apply IH | reflexivity].
Qed.

Lemma iteration_console
  (c : Config) (steps log_interval : nat) (d : Driver) (i : nat)
  (d1 : Driver) :
  iteration c steps log_interval d i = Returned d1 ->
  let broke := res_broken (result c (rng d) (sim d) (INR i * DT c)) in
  let due := ((i mod log_interval =? 0) || (i =? steps - 1))%nat in
  console d1
  = if broke then console d ++ [MkRow i true]
    else if due then console d ++ [MkRow i false]
    else console d.
Proof.
  unfold iteration. cbv zeta.
  destruct (res_broken (result c (rng d) (sim d) (INR i * DT c))).
  - intros Heq. injection Heq as <-. reflexivity.
  - destruct log_interval as [| k]; [discriminate |].
    destruct ((i mod S k =? 0) || (i =? steps - 1))%nat;
      intros Heq; injection Heq as <-; reflexivity.
Qed.

Lemma head_of_extended (rows more : list Row) (row : Row) :
  hd_error rows = Some row -> hd_error (rows ++ more) = Some row.
Proof.
  destruct rows as [| first rest]; [discriminate |].
  intros Hhead. exact Hhead.
Qed.

(** X20. The console always shows the first and the last step: at the end
    of a run of [steps >= parts] steps the first row written is the [OK]
    row of step 0, and the last row written reports step [steps - 1]. *)
Theorem console_shows_first_and_last_step
  (parts : nat) (c : Config) (g : Generator) (steps : nat) :
  (0 < parts <= steps)%nat ->
  exists d : Driver,
    main_loop parts c g steps = Returned d /\
    hd_error (console d) = Some (MkRow 0 false) /\
    exists snap : bool,
      last (console d) (MkRow 0 false) = MkRow (steps - 1) snap.
Proof.
  intros Hparts.
  assert (Hlog := log_interval_positive parts steps Hparts).
  destruct steps as [| n]; [lia |].
  set (body := iteration c (S n) (S n / parts)).
  set (Inv := fun (i : nat) (d : Driver) =>
                (i = 0%nat -> console d = []) /\
                (i <> 0%nat -> hd_error (console d) = Some (MkRow 0 false))).
  assert (Hkeep : forall (i : nat) (d d1 : Driver),
            Inv i d -> body d i = Returned d1 -> Inv (S i) d1).
  { intros i d d1 [Hempty Hhead] Hd1.
    assert (Hconsole := iteration_console c (S n) _ d i d1 Hd1).
    cbv zeta in Hconsole.
    split; [discriminate | intros _].
    destruct i as [| i].
    - rewrite first_step_keeps_filament in Hconsole.
      rewrite Nat.Div0.mod_0_l in Hconsole. cbn [Nat.eqb orb] in Hconsole.
      rewrite Hconsole, (Hempty eq_refl). reflexivity.
    - assert (Hold := Hhead ltac:(discriminate)).
      rewrite Hconsole.
      destruct (res_broken _); [apply head_of_extended; exact Hold |].
      destruct (_ || _)%bool; [apply head_of_extended |]; exact Hold. }
  destruct (for_each_invariant body Inv (S n)) with (n := n) (first := 0%nat)
    (d := start c g) as [d_mid [Hmid Hinv_mid]].
  - intros i d _ Hinv.
    destruct (iteration_total c (S n) (S n / parts) d i Hlog) as [d1 Hd1].
    exists d1. split; [exact Hd1 | exact (Hkeep i d d1 Hinv Hd1)].
  - lia.
  - split; [reflexivity | intros Habs; contradiction].
  - destruct (iteration_total c (S n) (S n / parts) d_mid n Hlog)
      as [d Hd].
    exists d. cbn [Nat.add] in Hinv_mid.
    assert (Hrun : main_loop parts c g (S n) = Returned d).
    { unfold main_loop. rewrite seq_S, for_each_app. fold body.
      rewrite Hmid. cbn [Nat.add for_each]. fold body in Hd. rewrite Hd.
      reflexivity. }
    split; [exact Hrun |].
    split.
    + destruct (Hkeep n d_mid d Hinv_mid Hd) as [_ Hhead].
      apply Hhead. discriminate.
    + assert (Hconsole := iteration_console c (S n) _ d_mid n d Hd).
      cbv zeta in Hconsole.
      replace (n =? S n - 1)%nat with true in Hconsole
        by (symmetry; apply Nat.eqb_eq; lia).
      rewrite orb_true_r in Hconsole.
      replace (S n - 1)%nat with n by lia.
      destruct (res_broken _); rewrite Hconsole, last_last;
        eexists; reflexivity.
Qed.

Lemma console_shows_first_and_last_step_witness :
  exists d : Driver,
    main_loop 25 Precision.config (constant_generator 0) 50 = Returned d /\
    hd_error (console d) = Some (MkRow 0 false).
Proof.
  destruct (console_shows_first_and_last_step 25 Precision.config
              (constant_generator 0) 50 ltac:(lia))
    as [d [Hd [Hhead _]]].
  exists d. split; [exact Hd | exact Hhead].
Defined.

(** ** From the position to the vertical velocity, through a break *)

Lemma clip_below (x lo hi : R) : lo <= hi -> x <= lo -> clip x lo hi = lo.
Proof.
  intros Hlohi Hx. unfold clip.
  rewrite Rmax_right by exact Hx. apply Rmin_right. exact Hlohi.
Qed.

Lemma clip_nonpositive (x lo hi : R) : lo <= 0 -> x <= 0 -> clip x lo hi <= 0.
Proof.
  intros Hlo Hx. unfold clip.
  apply Rle_trans with (Rmax x lo); [apply Rmin_r | apply Rmax_lub; assumption].
Qed.

Lemma pid_stays_off (c : Config) (self : State) (t noise : R) :
  0 < DT c -> power_input self = 0 -> pid_err_sum self <= 0 ->
  z_error c self t noise <= 0 ->
  z_error c self t noise <= pid_last_err self ->
  next_power_input c self t noise = 0 /\
  next_pid_err_sum c self t noise <= 0.
Proof.
  intros Hdt Hpower Hsum Herr Hfall.
  set (z := z_error c self t noise) in *.
  assert (Hstep : z * DT c <= 0).
  { replace (z * DT c) with (- (- z * DT c)) by ring.
    assert (0 <= - z * DT c) by (apply Rmult_le_pos; lra). lra. }
  assert (Hint : next_pid_err_sum c self t noise <= 0).
  { unfold next_pid_err_sum. fold z. apply clip_nonpositive; lra. }
  split; [| exact Hint].
  unfold next_power_input. cbv zeta. fold z. rewrite Hpower.
  set (sum1 := next_pid_err_sum c self t noise) in *.
  assert (Hslope : (z - pid_last_err self) / DT c <= 0).
  { unfold Rdiv.
    replace ((z - pid_last_err self) * / DT c)
      with (- ((pid_last_err self - z) * / DT c)) by ring.
    assert (0 <= (pid_last_err self - z) * / DT c).
    { apply Rmult_le_pos; [lra |]. left. apply Rinv_0_lt_compat. exact Hdt. }
    lra. }
  set (adj := 80000.0 * z + 5000.0 * sum1
              + 500.0 * ((z - pid_last_err self) / DT c)).
  assert (Hadj : adj <= 0) by (unfold adj; lra).
  assert (Hdown : adj * DT c <= 0).
  { replace (adj * DT c) with (- (- adj * DT c)) by ring.
    assert (0 <= - adj * DT c) by (apply Rmult_le_pos; lra). lra. }
  apply clip_below; lra.
Qed.

Lemma cold_stays_cold (c : Config) (self : State) (t noise : R) :
  thermal_energy self = 0 -> next_power_input c self t noise = 0 ->
  next_thermal_energy c self t noise = 0 /\ next_r_vapor c self t noise = 0.
Proof.
  intros Hcold Hoff.
  assert (HE : next_thermal_energy c self t noise = 0).
  { unfold next_thermal_energy, energy_update. rewrite Hoff, Hcold.
    replace (0 + (0 - 0 * 2.0) * DT c) with 0 by lra.
    apply Rmax_left. apply Rle_refl. }
  split; [exact HE |].
  unfold next_r_vapor. rewrite HE. apply vapor_radius_unheated.
Qed.

Lemma target_after_whole_turns (c : Config) (self : State) (k : nat) :
  RPM_MAGNET c <> 0 ->
  Precision.get_magnetic_target c self (INR k * magnet_period c)
  = Vec3 (R_TANK c) 0 (vz (pos self)).
Proof.
  intros Hrpm. unfold Precision.get_magnetic_target, magnet_period. cbv zeta.
  replace 60.0 with 60 by lra.
  replace (RPM_MAGNET c / 60 * 2 * PI * (INR k * (60 / RPM_MAGNET c)))
    with (0 + 2 * INR k * PI) by (field; exact Hrpm).
  rewrite cos_period, sin_period, cos_0, sin_0. f_equal; ring.
Qed.

Lemma ten_turns_value : ten_turns = 600 / 99.95.
Proof.
  unfold ten_turns, magnet_period. cbn [Precision.config RPM_MAGNET].
  rewrite (INR_IZR_INZ 10). change (Z.of_nat 10) with 10%Z. lra.
Qed.

Lemma ln_below_81 (x : R) : 0 < x <= 10 ^ 9 -> ln x <= 81.
Proof.
  intros [Hpos Hle].
  assert (Hten : ln 10 <= 9).
  { assert (H := ln_below_line 10 ltac:(lra)). lra. }
  assert (Hpow : ln (10 ^ 9) = INR 9 * ln 10) by (apply ln_pow; lra).
  assert (Hmono : ln x <= ln (10 ^ 9)).
  { destruct Hle as [Hlt | Heq].
    - left. apply ln_increasing; assumption.
    - right. rewrite Heq. reflexivity. }
  rewrite Hpow in Hmono.
  replace (INR 9) with 9 in Hmono by (rewrite (INR_IZR_INZ 9); reflexivity).
  lra.
Qed.

Lemma metre_denom_bounds (len : R) :
  1 <= len <= 1.001 -> 1 < denom Precision.config len <= 81.
Proof.
  intros Hlen.
  assert (Hr : 0 < R_CNT Precision.config)
    by (cbn [Precision.config R_CNT]; lra).
  assert (Hlong : 10 * R_CNT Precision.config < len)
    by (cbn [Precision.config R_CNT]; lra).
  split; [apply denom_above_one; assumption |].
  unfold denom. cbn [Precision.config R_CNT].
  assert (Hln : ln (2 * len / 20e-9) <= 81).
  { apply ln_below_81. split.
    - apply Rdiv_lt_0_compat; lra.
    - apply Rmult_le_reg_r with 20e-9; [lra |].
      replace (2 * len / 20e-9 * 20e-9) with (2 * len) by (field; lra).
      lra. }
  lra.
Qed.

Lemma div_le_bound (a b k : R) : 0 < k -> a <= b * k -> a / k <= b.
Proof.
  intros Hk Hle. apply Rmult_le_reg_r with k; [exact Hk |].
  replace (a / k * k) with a by (field; lra). exact Hle.
Qed.

Lemma div_ge_bound (a b k : R) : 0 < k -> b * k <= a -> b <= a / k.
Proof.
  intros Hk Hle. apply Rmult_le_reg_r with k; [exact Hk |].
  replace (a / k * k) with a by (field; lra). exact Hle.
Qed.

Lemma weight_excess (len : R) :
  f_grav Precision.config len - f_buoy Precision.config 0
  = PI * (9.81 * (4 / 3 * 3.0e-6 ^ 3 * 8150 + 20e-9 ^ 2 * len * 2200)).
Proof.
  unfold f_grav, f_buoy, total_mass.
  cbn [Precision.config G RHO_FLUID RHO_PARTICLE R_CORE R_CNT]. lra.
Qed.

Lemma sphere_drag_cold : gamma_sphere Precision.config 0 = PI * 7.2e-9.
Proof.
  unfold gamma_sphere. cbn [Precision.config VISCOSITY R_CORE]. lra.
Qed.

Lemma metre_gamma_cnt_lower (len : R) :
  1 <= len <= 1.001 -> PI * (0.0008 / 81) <= gamma_cnt Precision.config len.
Proof.
  intros Hlen.
  destruct (metre_denom_bounds len Hlen) as [Hd1 Hd2].
  assert (Hpi := PI_RGT_0).
  rewrite gamma_cnt_long by (cbn [Precision.config R_CNT]; lra).
  cbn [Precision.config VISCOSITY].
  apply div_ge_bound; [lra |].
  assert (Hlow : PI * (0.0008 / 81) * denom Precision.config len
                 <= PI * (0.0008 / 81) * 81).
  { apply Rmult_le_compat_l; [| exact Hd2].
    apply Rmult_le_pos; lra. }
  assert (Hnum : PI * 0.0008 <= 2 * PI * 0.4e-3 * len).
  { assert (0 <= PI * (len - 1)) by (apply Rmult_le_pos; lra). lra. }
  lra.
Qed.

Lemma metre_long_sinks_slowly (len : R) :
  1 <= len <= 1.001 ->
  0.0004 - 2e-6
  <= LIFT_SPEED Precision.config
     + (f_buoy Precision.config 0 - f_grav Precision.config len)
       / gamma_total Precision.config 0 len.
Proof.
  intros Hlen.
  assert (Hpi := PI_RGT_0).
  assert (Hcnt := metre_gamma_cnt_lower len Hlen).
  assert (Htotal : PI * (0.0008 / 81) <= gamma_total Precision.config 0 len).
  { unfold gamma_total. rewrite sphere_drag_cold. lra. }
  assert (Hpos : 0 < gamma_total Precision.config 0 len).
  { assert (0 < PI * (0.0008 / 81)) by (apply Rmult_lt_0_compat; lra). lra. }
  assert (Hsink :
    (f_grav Precision.config len - f_buoy Precision.config 0)
    / gamma_total Precision.config 0 len <= 2e-6).
  { apply div_le_bound; [exact Hpos |]. rewrite weight_excess.
    assert (Hdrag : 2e-6 * (PI * (0.0008 / 81))
                    <= 2e-6 * gamma_total Precision.config 0 len)
      by (apply Rmult_le_compat_l; lra).
    assert (Hweight :
      PI * (9.81 * (4 / 3 * 3.0e-6 ^ 3 * 8150 + 20e-9 ^ 2 * len * 2200))
      <= PI * 1.2e-11).
    { apply Rmult_le_compat_l; lra. }
    lra. }
  cbn [Precision.config LIFT_SPEED].
  unfold Rdiv in *.
  replace ((f_buoy Precision.config 0 - f_grav Precision.config len)
           * / gamma_total Precision.config 0 len)
    with (- ((f_grav Precision.config len - f_buoy Precision.config 0)
             * / gamma_total Precision.config 0 len)) by ring.
  lra.
Qed.

Lemma seed_sinks_fast (len : R) :
  0 <= len <= 10 * R_CNT Precision.config ->
  LIFT_SPEED Precision.config
  + (f_buoy Precision.config 0 - f_grav Precision.config len)
    / gamma_total Precision.config 0 len
  <= 1e-5.
Proof.
  intros [Hlen Hshort].
  assert (Hpi := PI_RGT_0).
  assert (Htotal : gamma_total Precision.config 0 len = PI * 7.2e-9).
  { unfold gamma_total. rewrite (gamma_cnt_short _ _ Hshort), sphere_drag_cold.
    ring. }
  assert (Hpos : 0 < PI * 7.2e-9) by (apply Rmult_lt_0_compat; lra).
  assert (Hsink :
    0.00039 <= (f_grav Precision.config len - f_buoy Precision.config 0)
               / gamma_total Precision.config 0 len).
  { rewrite Htotal. apply div_ge_bound; [exact Hpos |]. rewrite weight_excess.
    assert (0 <= PI * (9.81 * (20e-9 ^ 2 * len * 2200))).
    { apply Rmult_le_pos; [lra |]. apply Rmult_le_pos; [lra |].
      apply Rmult_le_pos; [| lra]. apply Rmult_le_pos; lra. }
    lra. }
  cbn [Precision.config LIFT_SPEED].
  unfold Rdiv in *.
  replace ((f_buoy Precision.config 0 - f_grav Precision.config len)
           * / gamma_total Precision.config 0 len)
    with (- ((f_grav Precision.config len - f_buoy Precision.config 0)
             * / gamma_total Precision.config 0 len)) by ring.
  lra.
Qed.

Lemma cold_step (c : Config) (g : Generator) (self : State) (t : R) :
  0 < DT c -> power_input self = 0 -> thermal_energy self = 0 ->
  pid_err_sum self <= 0 ->
  z_error c self t (drawn_noise g) <= 0 ->
  z_error c self t (drawn_noise g) <= pid_last_err self ->
  next_r_vapor c self t (drawn_noise g) = 0 /\
  power_input (next_state c g self t) = 0 /\
  thermal_energy (next_state c g self t) = 0 /\
  pid_err_sum (next_state c g self t) <= 0 /\
  current_z_vel_real (next_state c g self t)
  = LIFT_SPEED c
    + (f_buoy c 0 - f_grav c (grown_length c self))
      / gamma_total c 0 (grown_length c self).
Proof.
  intros Hdt Hpower Hcold Hsum Herr Hfall.
  destruct (pid_stays_off c self t (drawn_noise g) Hdt Hpower Hsum Herr Hfall)
    as [Hoff Hint].
  destruct (cold_stays_cold c self t (drawn_noise g) Hcold Hoff)
    as [HE Hrv].
  split; [exact Hrv |].
  rewrite next_vertical_velocity, Hrv.
  step_unfold. auto.
Qed.

Lemma norm_vdiv (f : vec3) (k : R) : 0 < k -> norm (vdiv f k) = norm f / k.
Proof.
  intros Hk. unfold norm, vdiv. cbn [vx vy vz].
  replace ((vx f / k) ^ 2 + (vy f / k) ^ 2 + (vz f / k) ^ 2)
    with ((vx f ^ 2 + vy f ^ 2 + vz f ^ 2) * (/ k) ^ 2)
    by (field; lra).
  assert (Hsum : 0 <= vx f ^ 2 + vy f ^ 2 + vz f ^ 2).
  { assert (Hx := pow2_ge_0 (vx f)). assert (Hy := pow2_ge_0 (vy f)).
    assert (Hz := pow2_ge_0 (vz f)). lra. }
  rewrite sqrt_mult_alt by exact Hsum.
  rewrite sqrt_pow2; [reflexivity |].
  left. apply Rinv_0_lt_compat. exact Hk.
Qed.

Lemma norm_at_most_sum (f : vec3) :
  norm f <= Rabs (vx f) + Rabs (vy f) + Rabs (vz f).
Proof.
  unfold norm.
  set (a := Rabs (vx f)). set (b := Rabs (vy f)). set (d := Rabs (vz f)).
  assert (Ha : 0 <= a) by apply Rabs_pos.
  assert (Hb : 0 <= b) by apply Rabs_pos.
  assert (Hd : 0 <= d) by apply Rabs_pos.
  assert (Hx : vx f ^ 2 = a ^ 2) by (unfold a; rewrite pow2_abs; reflexivity).
  assert (Hy : vy f ^ 2 = b ^ 2) by (unfold b; rewrite pow2_abs; reflexivity).
  assert (Hz : vz f ^ 2 = d ^ 2) by (unfold d; rewrite pow2_abs; reflexivity).
  rewrite Hx, Hy, Hz.
  rewrite <- (sqrt_pow2 (a + b + d)) by lra.
  apply sqrt_le_1_alt.
  assert (0 <= a * b) by (apply Rmult_le_pos; assumption).
  assert (0 <= a * d) by (apply Rmult_le_pos; assumption).
  assert (0 <= b * d) by (apply Rmult_le_pos; assumption).
  lra.
Qed.

Lemma norm_at_least_x (f : vec3) : Rabs (vx f) <= norm f.
Proof.
  unfold norm. rewrite <- (sqrt_pow2 (Rabs (vx f))) by apply Rabs_pos.
  apply sqrt_le_1_alt. rewrite pow2_abs.
  assert (Hy := pow2_ge_0 (vy f)). assert (Hz := pow2_ge_0 (vz f)). lra.
Qed.

Lemma f_external_at_ten_turns (self : State) (rv len : R) :
  f_external Precision.config self ten_turns rv len
  = Vec3 ((0.05 - vx (pos self)) * 2e-5
          + total_mass Precision.config len
            * (100.0 / 60.0 * 2 * PI) ^ 2 * vx (pos self))
         ((0 - vy (pos self)) * 2e-5
          + total_mass Precision.config len
            * (100.0 / 60.0 * 2 * PI) ^ 2 * vy (pos self))
         (0 * 2e-5
          + total_mass Precision.config len
            * (100.0 / 60.0 * 2 * PI) ^ 2 * 0
          + (f_buoy Precision.config rv - f_grav Precision.config len)).
Proof.
  unfold f_external, f_mag, f_cent, ten_turns.
  rewrite target_after_whole_turns
    by (cbn [Precision.config RPM_MAGNET]; lra).
  reflexivity.
Qed.

Lemma centrifugal_factor_bounds (len : R) :
  1 <= len <= 1.001 ->
  0 <= total_mass Precision.config len * (100.0 / 60.0 * 2 * PI) ^ 2 <= 1e-9.
Proof.
  intros Hlen.
  assert (Hpi := PI_RGT_0). assert (Hpi4 := PI_4).
  assert (Hmass : 0 <= total_mass Precision.config len <= 5e-12).
  { unfold total_mass. cbn [Precision.config R_CORE RHO_PARTICLE R_CNT].
    assert (Hlin : 0 <= PI * len <= 4 * 1.001).
    { split; [apply Rmult_le_pos; lra |].
      apply Rmult_le_compat; lra. }
    lra. }
  set (w := 100.0 / 60.0 * 2 * PI).
  assert (Hw : 0 <= w <= 14) by (unfold w; lra).
  assert (Hw2 : 0 <= w ^ 2 <= 196).
  { split; [apply pow2_ge_0 |].
    replace 196 with (14 ^ 2) by lra. apply pow_incr. exact Hw. }
  split.
  - apply Rmult_le_pos; lra.
  - apply Rle_trans with (5e-12 * 196); [| lra].
    apply Rmult_le_compat; lra.
Qed.

Lemma noise_of_constant_generator (z : R) (n : nat) :
  drawn_noise (constant_generator_after z n) = 0 + 0.0002 * z.
Proof. reflexivity. Qed.

Lemma first_step_error_at_ten_turns (p : vec3) :
  z_error Precision.config (with_pos metre_long p) ten_turns
          (0 + 0.0002 * 0.001)
  = 0.0004 * (600 / 99.95 / 20) - 0.00012 - 0.0000002.
Proof.
  unfold z_error, current_target_vel. rewrite ten_turns_value.
  cbn [with_pos metre_long current_z_vel_real Precision.config LIFT_SPEED].
  destruct (Rlt_dec (600 / 99.95) 20.0) as [_ | Habs]; lra.
Qed.

Lemma metre_grown_length (p : vec3) :
  grown_length Precision.config (with_pos metre_long p) = 1 + 80e-6 * 0.0005.
Proof. reflexivity. Qed.

Lemma first_step_from_metre_long (p : vec3) :
  let self := with_pos metre_long p in
  let s1 := next_state Precision.config (constant_generator 0.001) self
                       ten_turns in
  next_r_vapor Precision.config self ten_turns
               (drawn_noise (constant_generator 0.001)) = 0 /\
  power_input s1 = 0 /\ thermal_energy s1 = 0 /\ pid_err_sum s1 <= 0 /\
  pid_last_err s1 = 0.0004 * (600 / 99.95 / 20) - 0.00012 - 0.0000002 /\
  0.0004 - 2e-6 <= current_z_vel_real s1.
Proof.
  cbv zeta.
  assert (Hdt : 0 < DT Precision.config) by (cbn [Precision.config DT]; lra).
  assert (Herr := first_step_error_at_ten_turns p).
  destruct (cold_step Precision.config (constant_generator 0.001)
              (with_pos metre_long p) ten_turns Hdt eq_refl eq_refl)
    as [Hrv [Hpower [Hcold [Hsum Hvel]]]].
  - cbn [with_pos metre_long pid_err_sum]. lra.
  - change (drawn_noise (constant_generator 0.001)) with (0 + 0.0002 * 0.001).
    rewrite Herr. lra.
  - change (drawn_noise (constant_generator 0.001)) with (0 + 0.0002 * 0.001).
    rewrite Herr. cbn [with_pos metre_long pid_last_err]. lra.
  - split; [exact Hrv | split; [exact Hpower | split; [exact Hcold |]]].
    split; [exact Hsum | split].
    + change (pid_last_err
                (next_state Precision.config (constant_generator 0.001)
                            (with_pos metre_long p) ten_turns))
        with (z_error Precision.config (with_pos metre_long p) ten_turns
                      (0 + 0.0002 * 0.001)).
      exact Herr.
    + rewrite Hvel, metre_grown_length.
      apply metre_long_sinks_slowly. lra.
Qed.

Lemma metre_drag_share (len : R) :
  1 <= len <= 1.001 ->
  0 < gamma_total Precision.config 0 len /\
  0 <= gamma_cnt Precision.config len <= gamma_total Precision.config 0 len /\
  0.9 * gamma_total Precision.config 0 len <= gamma_cnt Precision.config len.
Proof.
  intros Hlen.
  assert (Hpi := PI_RGT_0).
  assert (Hcnt := metre_gamma_cnt_lower len Hlen).
  assert (Hfloor : 0 < PI * (0.0008 / 81))
    by (apply Rmult_lt_0_compat; lra).
  unfold gamma_total. rewrite sphere_drag_cold.
  repeat split; lra.
Qed.

Lemma first_step_tension (p : vec3) :
  res_tension
    (result Precision.config (constant_generator 0.001)
            (with_pos metre_long p) ten_turns)
  = norm (f_external Precision.config (with_pos metre_long p) ten_turns 0
                     (1 + 80e-6 * 0.0005))
    / gamma_total Precision.config 0 (1 + 80e-6 * 0.0005)
    * gamma_cnt Precision.config (1 + 80e-6 * 0.0005).
Proof.
  destruct (first_step_from_metre_long p) as [Hrv _]. cbv zeta in Hrv.
  destruct (metre_drag_share (1 + 80e-6 * 0.0005) ltac:(lra)) as [Hpos _].
  step_unfold. rewrite Hrv, metre_grown_length.
  unfold f_tension, v_drift. rewrite norm_vdiv by exact Hpos. reflexivity.
Qed.

Lemma tension_on_the_trap :
  res_tension
    (result Precision.config (constant_generator 0.001)
            (with_pos metre_long on_the_wall) ten_turns) <= 1e-9.
Proof.
  rewrite first_step_tension.
  set (len := 1 + 80e-6 * 0.0005).
  assert (Hlen : 1 <= len <= 1.001) by (unfold len; lra).
  destruct (metre_drag_share len Hlen) as [Hpos [[Hcnt0 Hcnt] _]].
  destruct (centrifugal_factor_bounds len Hlen) as [Hm0 Hm].
  assert (Hpi := PI_RGT_0). assert (Hpi4 := PI_4).
  set (F := f_external Precision.config (with_pos metre_long on_the_wall)
                       ten_turns 0 len).
  assert (Hnorm : norm F <= 1e-9).
  { apply Rle_trans with (Rabs (vx F) + Rabs (vy F) + Rabs (vz F));
      [apply norm_at_most_sum |].
    unfold F. rewrite f_external_at_ten_turns.
    cbn [vx vy vz with_pos pos on_the_wall].
    set (M := total_mass Precision.config len * (100.0 / 60.0 * 2 * PI) ^ 2)
      in *.
    assert (Hx : Rabs ((0.05 - 0.05) * 2e-5 + M * 0.05) <= 1e-10)
      by (apply Rabs_le; lra).
    assert (Hy : Rabs ((0 - 0) * 2e-5 + M * 0) <= 0)
      by (apply Rabs_le; lra).
    assert (Hweight := weight_excess len).
    assert (Hbound :
      0 <= PI * (9.81 * (4 / 3 * 3.0e-6 ^ 3 * 8150 + 20e-9 ^ 2 * len * 2200))
      <= 4 * 1.2e-11).
    { split.
      - apply Rmult_le_pos; lra.
      - apply Rmult_le_compat; lra. }
    assert (Hz : Rabs (0 * 2e-5 + M * 0
                       + (f_buoy Precision.config 0
                          - f_grav Precision.config len)) <= 1e-10)
      by (apply Rabs_le; lra).
    lra. }
  assert (Hn0 := norm_nonneg F).
  apply Rle_trans with (norm F); [| exact Hnorm].
  unfold Rdiv.
  replace (norm F * / gamma_total Precision.config 0 len
           * gamma_cnt Precision.config len)
    with (norm F * (gamma_cnt Precision.config len
                    / gamma_total Precision.config 0 len))
    by (unfold Rdiv; ring).
  rewrite <- (Rmult_1_r (norm F)) at 2.
  apply Rmult_le_compat_l; [exact Hn0 |].
  apply div_le_bound; [exact Hpos | lra].
Qed.

Lemma tension_off_the_trap :
  5e-7 <= res_tension
            (result Precision.config (constant_generator 0.001)
                    (with_pos metre_long off_the_trap) ten_turns).
Proof.
  rewrite first_step_tension.
  set (len := 1 + 80e-6 * 0.0005).
  assert (Hlen : 1 <= len <= 1.001) by (unfold len; lra).
  destruct (metre_drag_share len Hlen) as [Hpos [[Hcnt0 Hcnt] Hshare]].
  destruct (centrifugal_factor_bounds len Hlen) as [Hm0 Hm].
  set (F := f_external Precision.config (with_pos metre_long off_the_trap)
                       ten_turns 0 len).
  assert (Hnorm : 6e-7 <= norm F).
  { apply Rle_trans with (Rabs (vx F)); [| apply norm_at_least_x].
    apply Rle_trans with (vx F); [| apply Rle_abs].
    unfold F. rewrite f_external_at_ten_turns.
    cbn [vx with_pos pos off_the_trap]. lra. }
  unfold Rdiv.
  replace (norm F * / gamma_total Precision.config 0 len
           * gamma_cnt Precision.config len)
    with (norm F * (gamma_cnt Precision.config len
                    / gamma_total Precision.config 0 len))
    by (unfold Rdiv; ring).
  assert (Hratio : 0.9 <= gamma_cnt Precision.config len
                          / gamma_total Precision.config 0 len)
    by (apply div_ge_bound; [exact Hpos | exact Hshare]).
  apply Rle_trans with (6e-7 * 0.9); [lra |].
  apply Rmult_le_compat; lra.
Qed.

Lemma break_flag_of_step (c : Config) (g : Generator) (self : State) (t : R) :
  res_broken (result c g self t)
  = gtb (res_tension (result c g self t)) (ADHESION_LIMIT c) && gtb t 5.0.
Proof. reflexivity. Qed.

Lemma length_after_step (c : Config) (g : Generator) (self : State) (t : R) :
  cnt_length (next_state c g self t)
  = if res_broken (result c g self t) then 1e-9 else grown_length c self.
Proof. reflexivity. Qed.

Lemma no_break_on_the_trap :
  res_broken
    (result Precision.config (constant_generator 0.001)
            (with_pos metre_long on_the_wall) ten_turns) = false.
Proof.
  rewrite break_flag_of_step. apply andb_false_iff. left.
  apply gtb_false_iff. assert (H := tension_on_the_trap).
  cbn [Precision.config ADHESION_LIMIT]. lra.
Qed.

Lemma break_off_the_trap :
  res_broken
    (result Precision.config (constant_generator 0.001)
            (with_pos metre_long off_the_trap) ten_turns) = true.
Proof.
  rewrite break_flag_of_step. apply andb_true_iff.
  split; apply gtb_true_iff.
  - assert (H := tension_off_the_trap).
    cbn [Precision.config ADHESION_LIMIT]. lra.
  - rewrite ten_turns_value. lra.
Qed.

Lemma second_step_velocity (p : vec3) :
  current_z_vel_real
    (two_steps Precision.config (constant_generator 0.001)
               (with_pos metre_long p) ten_turns (ten_turns + 0.0005))
  = LIFT_SPEED Precision.config
    + (f_buoy Precision.config 0
       - f_grav Precision.config
           (cnt_length
              (next_state Precision.config (constant_generator 0.001)
                          (with_pos metre_long p) ten_turns)
            + 80e-6 * 0.0005))
      / gamma_total Precision.config 0
          (cnt_length
             (next_state Precision.config (constant_generator 0.001)
                         (with_pos metre_long p) ten_turns)
           + 80e-6 * 0.0005).
Proof.
  destruct (first_step_from_metre_long p)
    as [_ [Hpower [Hcold [Hsum [Hlast Hvel]]]]].
  cbv zeta in Hpower, Hcold, Hsum, Hlast, Hvel.
  unfold two_steps.
  set (s1 := next_state Precision.config (constant_generator 0.001)
                        (with_pos metre_long p) ten_turns) in *.
  change (snd (Precision.step Precision.config (constant_generator 0.001)
                 (with_pos metre_long p) ten_turns))
    with (constant_generator_after 0.001 1).
  assert (Hdt : 0 < DT Precision.config) by (cbn [Precision.config DT]; lra).
  assert (Herr :
    z_error Precision.config s1 (ten_turns + 0.0005)
            (drawn_noise (constant_generator_after 0.001 1))
    <= -0.0002).
  { rewrite noise_of_constant_generator.
    unfold z_error, current_target_vel. rewrite ten_turns_value.
    cbn [Precision.config LIFT_SPEED].
    destruct (Rlt_dec (600 / 99.95 + 0.0005) 20.0) as [_ | Habs]; lra. }
  destruct (cold_step Precision.config (constant_generator_after 0.001 1)
              s1 (ten_turns + 0.0005) Hdt Hpower Hcold Hsum)
    as [_ [_ [_ [_ Hvel2]]]].
  - lra.
  - rewrite Hlast. lra.
  - exact Hvel2.
Qed.

(** C10, as the specification words it, fails: over more than one step the
    lateral position does reach the vertical velocity.  Two precision runs
    start from states that differ in the position only, a metre-long cold
    filament on the trap at [(0.05, 0, 0)] and the same 0.03 m off the trap
    at [(0.02, 0, 0)], and take the same two steps (after ten magnet turns,
    about 6.003 s, and 0.5 ms later) with the same noise.  The first step
    gives both the same vertical velocity, but the spring force tears the
    filament off only in the second run (tension above 500 nN against at
    most 1 nN); the second step then computes gravity and drag from a
    filament of 1e-9 m instead of 1 m, and the vertical velocities differ:
    at most 0.01 mm/s against at least 0.398 mm/s. *)
Lemma position_reaches_velocity_through_break :
  res_broken
    (result Precision.config (constant_generator 0.001) metre_long ten_turns)
  = false /\
  res_broken
    (result Precision.config (constant_generator 0.001)
            (with_pos metre_long off_the_trap) ten_turns)
  = true /\
  current_z_vel_real
    (next_state Precision.config (constant_generator 0.001) metre_long
                ten_turns)
  = current_z_vel_real
      (next_state Precision.config (constant_generator 0.001)
                  (with_pos metre_long off_the_trap) ten_turns) /\
  current_z_vel_real
    (two_steps Precision.config (constant_generator 0.001)
               (with_pos metre_long off_the_trap) ten_turns
               (ten_turns + 0.0005))
  <= 1e-5 /\
  0.0004 - 2e-6
  <= current_z_vel_real
       (two_steps Precision.config (constant_generator 0.001) metre_long
                  ten_turns (ten_turns + 0.0005)) /\
  current_z_vel_real
    (two_steps Precision.config (constant_generator 0.001) metre_long
               ten_turns (ten_turns + 0.0005))
  <> current_z_vel_real
       (two_steps Precision.config (constant_generator 0.001)
                  (with_pos metre_long off_the_trap) ten_turns
                  (ten_turns + 0.0005)).
Proof.
  assert (Hkept := no_break_on_the_trap).
  assert (Htorn := break_off_the_trap).
  assert (Hslow :
    current_z_vel_real
      (two_steps Precision.config (constant_generator 0.001)
                 (with_pos metre_long off_the_trap) ten_turns
                 (ten_turns + 0.0005)) <= 1e-5).
  { rewrite second_step_velocity, length_after_step, Htorn.
    apply seed_sinks_fast. cbn [Precision.config R_CNT]. lra. }
  assert (Hfast :
    0.0004 - 2e-6
    <= current_z_vel_real
         (two_steps Precision.config (constant_generator 0.001)
                    (with_pos metre_long on_the_wall) ten_turns
                    (ten_turns + 0.0005))).
  { rewrite second_step_velocity, length_after_step, Hkept,
      metre_grown_length.
    apply metre_long_sinks_slowly. lra. }
  change (with_pos metre_long on_the_wall) with metre_long in Hkept, Hfast.
  split; [exact Hkept | split; [exact Htorn | split]].
  - rewrite !next_vertical_velocity. reflexivity.
  - split; [exact Hslow | split; [exact Hfast |]].
    apply Rgt_not_eq. lra.
Qed.
